(** * The website delivery layer of analytics-api

    A shallow embedding of [internal/app/website/delivery_http.go]: the gin
    handlers [Tracking], [GetWebsite], [GetAllWebsite] and [AddWebsite] of
    [httpDelivery], the [RequestWebsite] payload with its validation tags, and
    the collaborators the handlers call (the [UseCase] interfaces, the
    [security], [str] and [dur] packages, the clock and the logger).

    A handler is a program over the calls it makes to its collaborators; the
    collaborators are interfaces (type classes), so every theorem holds for
    each implementation of them.  Running a handler against a world (the
    website store and the clock) gives the chronological trace of its calls
    with their answers and the final world. *)

From Stdlib Require Import List String Ascii ZArith Lia Bool Arith.
Import ListNotations.
Local Open Scope string_scope.

Set Implicit Arguments.

(** ** Go values *)

(** A Go [error] value that is not nil, by its [Error()] text. *)
Definition error : Type := string.

(** A Go result pair [(value, err)]: [inl value] when [err == nil]. *)
Definition result (A : Type) : Type := (A + error)%type.

(** The [net/http] status constants the handlers use, and the two the
    specification names without the code using them. *)
Definition StatusOK : Z := 200.
Definition StatusBadRequest : Z := 400.
Definition StatusUnauthorized : Z := 401.
Definition StatusForbidden : Z := 403.
Definition StatusNotFound : Z := 404.
Definition StatusConflict : Z := 409.
Definition StatusInternalServerError : Z := 500.

(** ** utf8.RuneCountInString

    The validator measures a string field by its number of runes.  The loop
    of the Go library advances by the width of the rune at the current
    position (1 for ASCII, for an invalid lead byte and for a truncated or
    ill-formed sequence); here the width minus one is the number of bytes
    still to skip. *)

Definition byte_in (lo hi : nat) (c : ascii) : bool :=
  (lo <=? nat_of_ascii c)%nat && (nat_of_ascii c <=? hi)%nat.

(** Continuation bytes: [locb = 0x80], [hicb = 0xBF]. *)
Definition is_cont (c : ascii) : bool := byte_in 128 191 c.

(** [first[c]] with its accept range: the width of the sequence a lead byte
    announces and the range allowed for its second byte; [None] is [xx]
    (and ASCII, of width 1 as well). *)
Definition lead_info (c : ascii) : option (nat * (nat * nat)) :=
  let n := nat_of_ascii c in
  if (n <? 194)%nat then None                       (* as, and xx: 0x80..0xC1 *)
  else if (n <=? 223)%nat then Some (2, (128, 191))  (* s1: 0xC2..0xDF *)
  else if (n =? 224)%nat then Some (3, (160, 191))   (* s2: 0xE0 *)
  else if (n <=? 236)%nat then Some (3, (128, 191))  (* s3: 0xE1..0xEC *)
  else if (n =? 237)%nat then Some (3, (128, 159))   (* s4: 0xED *)
  else if (n <=? 239)%nat then Some (3, (128, 191))  (* s3: 0xEE..0xEF *)
  else if (n =? 240)%nat then Some (4, (144, 191))   (* s5: 0xF0 *)
  else if (n <=? 243)%nat then Some (4, (128, 191))  (* s6: 0xF1..0xF3 *)
  else if (n =? 244)%nat then Some (4, (128, 143))   (* s7: 0xF4 *)
  else None.                                        (* xx: 0xF5..0xFF *)

(** The width of the rune that starts with [c], [rest] being the bytes after
    it. *)
Definition rune_width (c : ascii) (rest : string) : nat :=
  match lead_info c with
  | None => 1
  | Some (size, (lo, hi)) =>
    if (String.length rest <? size - 1)%nat then 1
    else
      match rest with
      | String c1 rest1 =>
        if negb (byte_in lo hi c1) then 1
        else if (size =? 2)%nat then 2
        else
          match rest1 with
          | String c2 rest2 =>
            if negb (is_cont c2) then 1
            else if (size =? 3)%nat then 3
            else
              match rest2 with
              | String c3 _ => if negb (is_cont c3) then 1 else 4
              | EmptyString => 1
              end
          | EmptyString => 1
          end
      | EmptyString => 1
      end
  end.

Fixpoint rune_count_from (skip : nat) (s : string) : nat :=
  match s with
  | EmptyString => 0
  | String c rest =>
    match skip with
    | S k => rune_count_from k rest
    | O => S (rune_count_from (rune_width c rest - 1) rest)
    end
  end.

Definition RuneCountInString (s : string) : nat := rune_count_from 0 s.

(** ** The request payload and its validation *)

(** [type RequestWebsite struct], with the tags
    [validate:"required,min=2,max=100"] on [Name] and
    [validate:"required,min=3"] on [URL]. *)
Record RequestWebsite : Type := mkRequestWebsite {
  Name : string;
  URL : string
}.

(** One failed field of [validator.ValidationErrors]: the field and the
    first tag that failed on it. *)
Record FieldError : Type := mkFieldError {
  Field : string;
  Tag : string
}.

Definition is_empty (s : string) : bool :=
  match s with EmptyString => true | _ => false end.

(** The tags of a field are tried in order and the first failure is the
    field's error. *)
Definition validate_Name (name : string) : option FieldError :=
  if is_empty name then Some (mkFieldError "Name" "required")
  else if (RuneCountInString name <? 2)%nat then Some (mkFieldError "Name" "min")
  else if (100 <? RuneCountInString name)%nat then Some (mkFieldError "Name" "max")
  else None.

Definition validate_URL (url : string) : option FieldError :=
  if is_empty url then Some (mkFieldError "URL" "required")
  else if (RuneCountInString url <? 3)%nat then Some (mkFieldError "URL" "min")
  else None.

Definition opt_list {A : Type} (o : option A) : list A :=
  match o with Some a => [a] | None => [] end.

Definition field_errors (request : RequestWebsite) : list FieldError :=
  (opt_list (validate_Name (Name request)) ++ opt_list (validate_URL (URL request)))%list.

Definition newline : string := String (ascii_of_nat 10) EmptyString.

(** [FieldError.Error()] *)
Definition FieldError_Error (fe : FieldError) : string :=
  "Key: 'RequestWebsite." ++ Field fe ++ "' Error:Field validation for '"
    ++ Field fe ++ "' failed on the '" ++ Tag fe ++ "' tag".

(** [ValidationErrors.Error()]: one line per failed field. *)
Definition ValidationErrors_Error (errs : list FieldError) : string :=
  String.concat newline (map FieldError_Error errs).

(** [validate.Struct(request)]: [None] is the nil error. *)
Definition validate_Struct (request : RequestWebsite) : option error :=
  match field_errors request with
  | [] => None
  | errs => Some (ValidationErrors_Error errs)
  end.

(** ** The transport values *)

(** The part of [*http.Request] the handlers hand on: the headers (the
    bearer credential is read from them by [security]) and the body (bound
    by gin). *)
Record http_Request : Type := mkRequest {
  Header : list (string * string);
  Body : string
}.

(** The part of [*gin.Context] the handlers read. *)
Record gin_Context : Type := mkContext {
  Request : http_Request;
  Params : list (string * string)
}.

(** [c.Param(key)]: the empty string when the route has no such parameter. *)
Fixpoint lookup_param (ps : list (string * string)) (key : string) : string :=
  match ps with
  | [] => ""
  | (k, v) :: ps' => if String.eqb k key then v else lookup_param ps' key
  end.

Definition Param (c : gin_Context) (key : string) : string :=
  lookup_param (Params c) key.

(** [security.AccessDetails], of which the handlers read [AccessUUID]. *)
Record AccessDetails : Type := mkAccessDetails {
  AccessUUID : string
}.

Section Delivery.

(** [time.Time], and the type of the [CreatedAt] and [UpdatedAt] fields
    ([dur.ParseTime] returns it); [models] and [dur] fix them. *)
Variables (Time Stamp : Type).

(** [models.Website] *)
Record Website : Type := mkWebsite {
  ID : string;
  UserID : string;
  WName : string;
  HostName : string;
  WURL : string;
  Tracked : bool;
  CreatedAt : Stamp;
  UpdatedAt : Stamp
}.

(** What a handler writes to the client. *)
Inductive Payload : Type :=
| gin_H (key msg : string)                     (* gin.H{key: msg} *)
| website_json (w : Website)
| websites_json (ws : list Website)
| tracking_html (url websiteID userID : string). (* "tracking.html" *)

Record Response : Type := mkResponse {
  status : Z;
  payload : Payload
}.

(** ** Calls and programs

    [Call X] is a call a handler makes, answered by an [X]. *)
Inductive Call : Type -> Type :=
| c_ShouldBindJSON (r : http_Request) : Call (result RequestWebsite)
| c_JSON (code : Z) (obj : Payload) : Call unit
| c_HTML (code : Z) (obj : Payload) : Call unit
| str_ParseURL (url : string) : Call (result string)
| security_ExtractAccessTokenMetadata (r : http_Request) : Call (result AccessDetails)
| security_Hash (value : string) : Call string
| authUsecase_GetAuth (accessUUID : string) : Call (result string)
| websiteUseCase_FindWebsite (userID hostName : string) : Call (result Z)
| websiteUseCase_InsertWebsite (userID : string) (w : Website) : Call (option error)
| websiteUseCase_GetWebsite (userID websiteID : string) : Call (result Website)
| websiteUseCase_GetAllWebsite (userID : string) : Call (result (list Website))
| time_Now : Call Time
| time_Format (t : Time) (layout : string) : Call string
| dur_ParseTime (value : string) : Call (result Stamp)
| logrus_Error (err : error) : Call unit.

(** A handler body: it returns, or makes a call and goes on with the
    answer. *)
Inductive Prog : Type :=
| Return : Prog
| Vis (X : Type) (call : Call X) (k : X -> Prog) : Prog.

End Delivery.

Arguments gin_H {Stamp} key msg.
Arguments tracking_html {Stamp} url websiteID userID.
Arguments c_ShouldBindJSON {Time Stamp} r.
Arguments c_JSON {Time Stamp} code obj.
Arguments c_HTML {Time Stamp} code obj.
Arguments str_ParseURL {Time Stamp} url.
Arguments security_ExtractAccessTokenMetadata {Time Stamp} r.
Arguments security_Hash {Time Stamp} value.
Arguments authUsecase_GetAuth {Time Stamp} accessUUID.
Arguments websiteUseCase_FindWebsite {Time Stamp} userID hostName.
Arguments websiteUseCase_InsertWebsite {Time Stamp} userID w.
Arguments websiteUseCase_GetWebsite {Time Stamp} userID websiteID.
Arguments websiteUseCase_GetAllWebsite {Time Stamp} userID.
Arguments time_Now {Time Stamp}.
Arguments time_Format {Time Stamp} t layout.
Arguments dur_ParseTime {Time Stamp} value.
Arguments logrus_Error {Time Stamp} err.
Arguments Return {Time Stamp}.
Arguments Vis {Time Stamp X} call k.

Declare Scope prog_scope.
Delimit Scope prog_scope with prog.
Bind Scope prog_scope with Prog.

Notation "x <- c ;; k" := (Vis c (fun x => k))
  (at level 61, c at next level, right associativity) : prog_scope.
Notation "c ;; k" := (Vis c (fun _ => k))
  (at level 61, right associativity) : prog_scope.

(** ** The handlers of [httpDelivery] *)

Module httpDelivery.
Section Handlers.

Variables (Time Stamp : Type).

(** [configs.AppURL] *)
Variable AppURL : string.

Local Open Scope prog_scope.

(** [func (instance *httpDelivery) Tracking(c *gin.Context)] *)
Definition Tracking (c : gin_Context) : Prog Time Stamp :=
  r <- security_ExtractAccessTokenMetadata (Request c) ;;
  match r with
  | inr _ =>
    c_JSON StatusUnauthorized (gin_H "error" "extract token metadata failed") ;;
    Return
  | inl tokenAuth =>
    r <- authUsecase_GetAuth (AccessUUID tokenAuth) ;;
    match r with
    | inr _ =>
      c_JSON StatusUnauthorized (gin_H "error" "get token auth failed") ;;
      Return
    | inl userID =>
      let websiteID := Param c "website_id" in
      c_HTML StatusOK (tracking_html AppURL websiteID userID) ;;
      Return
    end
  end.

(** [func (instance *httpDelivery) GetWebsite(c *gin.Context)] *)
Definition GetWebsite (c : gin_Context) : Prog Time Stamp :=
  let websiteID := Param c "website_id" in
  r <- security_ExtractAccessTokenMetadata (Request c) ;;
  match r with
  | inr _ =>
    c_JSON StatusUnauthorized (gin_H "error" "extract token metadata failed") ;;
    Return
  | inl tokenAuth =>
    r <- authUsecase_GetAuth (AccessUUID tokenAuth) ;;
    match r with
    | inr _ =>
      c_JSON StatusUnauthorized (gin_H "error" "get token auth failed") ;;
      Return
    | inl userID =>
      r <- websiteUseCase_GetWebsite userID websiteID ;;
      match r with
      | inr _ =>
        c_JSON StatusInternalServerError
          (gin_H "error" "error occured while get the website by id") ;;
        Return
      | inl website =>
        c_JSON StatusOK (website_json website) ;;
        Return
      end
    end
  end.

(** [func (instance *httpDelivery) GetAllWebsite(c *gin.Context)] *)
Definition GetAllWebsite (c : gin_Context) : Prog Time Stamp :=
  r <- security_ExtractAccessTokenMetadata (Request c) ;;
  match r with
  | inr _ =>
    c_JSON StatusUnauthorized (gin_H "error" "extract token metadata failed") ;;
    Return
  | inl tokenAuth =>
    r <- authUsecase_GetAuth (AccessUUID tokenAuth) ;;
    match r with
    | inr _ =>
      c_JSON StatusUnauthorized (gin_H "error" "get token auth failed") ;;
      Return
    | inl userID =>
      r <- websiteUseCase_GetAllWebsite userID ;;
      match r with
      | inr _ =>
        c_JSON StatusInternalServerError
          (gin_H "error" "error occured while get all website") ;;
        Return
      | inl websites =>
        c_JSON StatusOK (websites_json websites) ;;
        Return
      end
    end
  end.

(** The layout of the creation time: [time.Now().Format(...)]. *)
Definition layout : string := "2006-01-02, 15:04:05".

(** The [else] branch of [AddWebsite], entered when [count <= 0].  [err] is
    the error variable of the function as [FindWebsite] left it; the branch is
    entered past the check of that error, so [security.Hash], which returns no
    error, is followed by a test of a nil [err]. *)
Definition create (request : RequestWebsite) (hostName userID : string)
    (err : option error) : Prog Time Stamp :=
  websiteID <- security_Hash hostName ;;
  match err with
  | Some _ =>
    c_JSON StatusInternalServerError
      (gin_H "msg" "error occured while create id for the website") ;;
    Return
  | None =>
    now <- time_Now ;;
    formatted <- time_Format now layout ;;
    r <- dur_ParseTime formatted ;;
    match r with
    | inr err =>
      logrus_Error err ;;
      Return
    | inl createdAt =>
      let website :=
        {| ID := websiteID;
           UserID := userID;
           WName := Name request;
           HostName := hostName;
           WURL := URL request;
           Tracked := false;
           CreatedAt := createdAt;
           UpdatedAt := createdAt |} in
      insertErr <- websiteUseCase_InsertWebsite userID website ;;
      match insertErr with
      | Some _ =>
        c_JSON StatusInternalServerError
          (gin_H "msg" "error occured while insert website") ;;
        Return
      | None =>
        c_JSON StatusOK (website_json website) ;;
        Return
      end
    end
  end.

(** [func (instance *httpDelivery) AddWebsite(c *gin.Context)] *)
Definition AddWebsite (c : gin_Context) : Prog Time Stamp :=
  r <- c_ShouldBindJSON (Request c) ;;
  match r with
  | inr err =>
    c_JSON StatusBadRequest (gin_H "error" err) ;;
    Return
  | inl request =>
    match validate_Struct request with
    | Some validationErr =>
      c_JSON StatusBadRequest (gin_H "error" validationErr) ;;
      Return
    | None =>
      r <- str_ParseURL (URL request) ;;
      match r with
      | inr _ =>
        c_JSON StatusInternalServerError
          (gin_H "msg" "error occured while parse url the website") ;;
        Return
      | inl hostName =>
        r <- security_ExtractAccessTokenMetadata (Request c) ;;
        match r with
        | inr _ =>
          c_JSON StatusUnauthorized (gin_H "error" "extract token metadata failed") ;;
          Return
        | inl tokenAuth =>
          r <- authUsecase_GetAuth (AccessUUID tokenAuth) ;;
          match r with
          | inr _ =>
            c_JSON StatusUnauthorized (gin_H "error" "get token auth failed") ;;
            Return
          | inl userID =>
            r <- websiteUseCase_FindWebsite userID hostName ;;
            match r with
            | inr _ =>
              c_JSON StatusInternalServerError
                (gin_H "msg" "error occured while check for the email") ;;
              Return
            | inl count =>
              if (0 <? count)%Z then
                c_JSON StatusConflict (gin_H "msg" "this website already exists") ;;
                Return
              else create request hostName userID None
            end
          end
        end
      end
    end
  end.

(** [UpdateWebsite] and [DeleteWebsite] have empty bodies. *)
Definition UpdateWebsite (c : gin_Context) : Prog Time Stamp := Return.
Definition DeleteWebsite (c : gin_Context) : Prog Time Stamp := Return.

End Handlers.

Arguments Tracking {Time Stamp} AppURL c.
Arguments GetWebsite {Time Stamp} c.
Arguments GetAllWebsite {Time Stamp} c.
Arguments create {Time Stamp} request hostName userID err.
Arguments AddWebsite {Time Stamp} c.
Arguments UpdateWebsite {Time Stamp} c.
Arguments DeleteWebsite {Time Stamp} c.

End httpDelivery.

(** ** The collaborators

    The handlers reach everything outside this file through interfaces. *)

(** The packages whose functions depend on their arguments alone: gin's JSON
    binding, [str], the token extraction of [security], [time] formatting and
    [dur]. *)
Class Packages (Time Stamp : Type) : Type := {
  ShouldBindJSON : http_Request -> result RequestWebsite;
  ParseURL : string -> result string;
  ExtractAccessTokenMetadata : http_Request -> result AccessDetails;
  Format : Time -> string -> string;
  ParseTime : string -> result Stamp
}.

(** Modelled from the spec: [security.Hash], whose package
    ([internal/pkg/security]) is not among the sources.  The specification's
    identifier step: "compute a deterministic, collision-resistant digest of
    canonical_host and use it as the resource identifier".  Deterministic: the
    digest is a function of the text it is given, and of nothing else. *)
Class Digest : Type := {
  Hash : string -> string
}.

(** [auth.UseCase], of which the handlers call [GetAuth]: a lookup of the
    access identifier in the session store, which no handler of this file
    writes. *)
Class auth_UseCase : Type := {
  GetAuth : string -> result string
}.

(** [UseCase], the website use case, over a store [Db].  [GetWebsite] fills
    the [*models.Website] it is handed; its answer is that website or the
    error. *)
Class UseCase (Stamp Db : Type) : Type := {
  FindWebsite : Db -> string -> string -> result Z;
  InsertWebsite : Db -> string -> Website Stamp -> Db * option error;
  GetWebsite : Db -> string -> string -> result (Website Stamp);
  GetAllWebsite : Db -> string -> result (list (Website Stamp))
}.

(** ** Running a handler *)

Section Semantics.

Context {Time Stamp Db : Type}.
Context {pkg : Packages Time Stamp} {digest : Digest}.
Context {auth : auth_UseCase} {uc : UseCase Stamp Db}.

(** The wall clock: its reading at the n-th call of [time.Now]. *)
Variable clock : nat -> Time.

(** What the handlers share: the website store and the number of clock
    readings so far. *)
Record World : Type := mkWorld {
  store : Db;
  ticks : nat
}.

(** The answer to a call and the world after it. *)
Definition answer {X : Type} (call : Call Time Stamp X) (w : World) : X * World :=
  match call in Call _ _ X return X * World with
  | c_ShouldBindJSON r => (ShouldBindJSON r, w)
  | c_JSON _ _ => (tt, w)
  | c_HTML _ _ => (tt, w)
  | str_ParseURL url => (ParseURL url, w)
  | security_ExtractAccessTokenMetadata r => (ExtractAccessTokenMetadata r, w)
  | security_Hash value => (Hash value, w)
  | authUsecase_GetAuth accessUUID => (GetAuth accessUUID, w)
  | websiteUseCase_FindWebsite userID hostName =>
    (FindWebsite (store w) userID hostName, w)
  | websiteUseCase_InsertWebsite userID site =>
    let (s', err) := InsertWebsite (store w) userID site in
    (err, {| store := s'; ticks := ticks w |})
  | websiteUseCase_GetWebsite userID websiteID =>
    (GetWebsite (store w) userID websiteID, w)
  | websiteUseCase_GetAllWebsite userID => (GetAllWebsite (store w) userID, w)
  | time_Now => (clock (ticks w), {| store := store w; ticks := S (ticks w) |})
  | time_Format t layout => (Format t layout, w)
  | dur_ParseTime value => (ParseTime value, w)
  | logrus_Error _ => (tt, w)
  end.

(** A call with its answer. *)
Inductive Event : Type :=
| Ev (X : Type) (call : Call Time Stamp X) (ans : X).

(** A handler run to its return: the calls it made, in order, and the world
    it leaves. *)
Fixpoint run (p : Prog Time Stamp) (w : World) : list Event * World :=
  match p with
  | Return => ([], w)
  | Vis call k =>
    let (x, w1) := answer call w in
    let (tr, w2) := run (k x) w1 in
    (Ev call x :: tr, w2)
  end.

(** *** Reading a trace *)

(** What was written to the client ([c.JSON], [c.HTML]). *)
Definition response_of (e : Event) : option (Response Stamp) :=
  match e with
  | Ev (c_JSON code obj) _ => Some (mkResponse code obj)
  | Ev (c_HTML code obj) _ => Some (mkResponse code obj)
  | Ev _ _ => None
  end.

(** The record of an [InsertWebsite] call, and whether the store took it. *)
Definition insert_of (e : Event) : option (Website Stamp * bool) :=
  match e with
  | Ev (websiteUseCase_InsertWebsite _ site) err =>
    Some (site, match err with None => true | Some _ => false end)
  | Ev _ _ => None
  end.

Definition log_of (e : Event) : option error :=
  match e with
  | Ev (logrus_Error err) _ => Some err
  | Ev _ _ => None
  end.

(** The error of a failed [dur.ParseTime]. *)
Definition parse_time_failure_of (e : Event) : option error :=
  match e with
  | Ev (dur_ParseTime _) r => match r with inr err => Some err | inl _ => None end
  | Ev _ _ => None
  end.

Definition is_clock_read (e : Event) : bool :=
  match e with Ev time_Now _ => true | Ev _ _ => false end.

(** Canonicalization: [str.ParseURL]. *)
Definition is_canonicalization (e : Event) : bool :=
  match e with Ev (str_ParseURL _) _ => true | Ev _ _ => false end.

(** Authentication: the credential extraction and the session lookup. *)
Definition is_authentication (e : Event) : bool :=
  match e with
  | Ev (security_ExtractAccessTokenMetadata _) _ => true
  | Ev (authUsecase_GetAuth _) _ => true
  | Ev _ _ => false
  end.

(** Store access: any call of the website use case. *)
Definition is_store_access (e : Event) : bool :=
  match e with
  | Ev (websiteUseCase_FindWebsite _ _) _ => true
  | Ev (websiteUseCase_InsertWebsite _ _) _ => true
  | Ev (websiteUseCase_GetWebsite _ _) _ => true
  | Ev (websiteUseCase_GetAllWebsite _) _ => true
  | Ev _ _ => false
  end.

Fixpoint collect {A B : Type} (f : A -> option B) (l : list A) : list B :=
  match l with
  | [] => []
  | a :: l' => match f a with Some b => b :: collect f l' | None => collect f l' end
  end.

Definition responses (tr : list Event) : list (Response Stamp) := collect response_of tr.
Definition inserts (tr : list Event) : list (Website Stamp * bool) := collect insert_of tr.
Definition logged (tr : list Event) : list error := collect log_of tr.
Definition parse_time_failures (tr : list Event) : list error :=
  collect parse_time_failure_of tr.
Definition clock_reads (tr : list Event) : nat := List.length (filter is_clock_read tr).

(** The records the store took. *)
Definition created (tr : list Event) : list (Website Stamp) :=
  map fst (filter snd (inserts tr)).

(** *** Two handlers at once

    Two requests are served by two goroutines over one store.  A schedule
    says whose call is next ([true]: the first handler); a handler that has
    returned lets its turn pass. *)

Definition step (p : Prog Time Stamp) (w : World) : option (Event * Prog Time Stamp * World) :=
  match p with
  | Return => None
  | Vis call k => let (x, w1) := answer call w in Some (Ev call x, k x, w1)
  end.

Record Pool : Type := mkPool {
  first : Prog Time Stamp;
  second : Prog Time Stamp;
  shared : World;
  first_trace : list Event;
  second_trace : list Event
}.

Definition turn (who : bool) (pl : Pool) : Pool :=
  if who then
    match step (first pl) (shared pl) with
    | None => pl
    | Some (e, p, w) =>
      {| first := p; second := second pl; shared := w;
         first_trace := first_trace pl ++ [e]; second_trace := second_trace pl |}
    end
  else
    match step (second pl) (shared pl) with
    | None => pl
    | Some (e, p, w) =>
      {| first := first pl; second := p; shared := w;
         first_trace := first_trace pl; second_trace := second_trace pl ++ [e] |}
    end.

Definition interleave (sched : list bool) (pl : Pool) : Pool :=
  fold_left (fun pl who => turn who pl) sched pl.

Definition start (p1 p2 : Prog Time Stamp) (w : World) : Pool :=
  {| first := p1; second := p2; shared := w; first_trace := []; second_trace := [] |}.

(** Both handlers have returned. *)
Definition finished (pl : Pool) : bool :=
  match first pl, second pl with
  | Return, Return => true
  | _, _ => false
  end.

End Semantics.

(** ** Canonicalization *)

Definition is_upper (c : ascii) : bool := byte_in 65 90 c.

Definition fold_case (c : ascii) : ascii :=
  if is_upper c then ascii_of_nat (nat_of_ascii c + 32) else c.

Fixpoint ToLower (s : string) : string :=
  match s with
  | EmptyString => EmptyString
  | String c r => String (fold_case c) (ToLower r)
  end.

(** The scheme is what precedes the first colon. *)
Fixpoint cut_scheme (s : string) : option (string * string) :=
  match s with
  | EmptyString => None
  | String c r =>
    if Ascii.eqb c ":" then Some (EmptyString, r)
    else
      match cut_scheme r with
      | Some (scheme, rest) => Some (String c scheme, rest)
      | None => None
      end
  end.

(** The two slashes that open the authority. *)
Definition after_slashes (s : string) : option string :=
  match s with
  | String c1 (String c2 r) =>
    if Ascii.eqb c1 "/" && Ascii.eqb c2 "/" then Some r else None
  | _ => None
  end.

(** The authority ends where the path, the query or the fragment begins. *)
Definition ends_host (c : ascii) : bool :=
  Ascii.eqb c "/" || Ascii.eqb c "?" || Ascii.eqb c "#".

Fixpoint authority (s : string) : string :=
  match s with
  | EmptyString => EmptyString
  | String c r => if ends_host c then EmptyString else String c (authority r)
  end.

(** The user information is what precedes the last [@] of the authority. *)
Fixpoint after_last_at (s : string) : option string :=
  match s with
  | EmptyString => None
  | String c r =>
    match after_last_at r with
    | Some rest => Some rest
    | None => if Ascii.eqb c "@" then Some r else None
    end
  end.

Definition drop_userinfo (s : string) : string :=
  match after_last_at s with
  | Some rest => rest
  | None => s
  end.

(** The port follows the first colon after the host; a host that is an
    address in brackets ends with the closing bracket. *)
Fixpoint until_colon (s : string) : string :=
  match s with
  | EmptyString => EmptyString
  | String c r => if Ascii.eqb c ":" then EmptyString else String c (until_colon r)
  end.

Fixpoint through_bracket (s : string) : string :=
  match s with
  | EmptyString => EmptyString
  | String c r =>
    if Ascii.eqb c "]" then String c EmptyString else String c (through_bracket r)
  end.

Definition drop_port (s : string) : string :=
  match s with
  | EmptyString => EmptyString
  | String c _ => if Ascii.eqb c "[" then through_bracket s else until_colon s
  end.

(** The host component of an authority [userinfo@host:port]. *)
Definition host_component (s : string) : string := drop_port (drop_userinfo s).

(** The separators a host can be written with at its end: the dot of the
    root label and the slash. *)
Definition is_separator (c : ascii) : bool :=
  Ascii.eqb c "/" || Ascii.eqb c ".".

Fixpoint strip_trailing_separator (s : string) : string :=
  match s with
  | EmptyString => EmptyString
  | String c r =>
    let r' := strip_trailing_separator r in
    if is_empty r' && is_separator c then EmptyString else String c r'
  end.

(** A host in canonical form: case-folded, without trailing separators. *)
Definition canonical_host (host : string) : string :=
  strip_trailing_separator (ToLower host).

Definition InvalidURL : error := "InvalidURL".

(** Modelled from the spec: [str.ParseURL], whose package
    ([internal/pkg/string]) is not among the sources.  The specification's
    canonicalization step: "parse raw_url as a URL; extract only the host
    component, case-fold it, strip any trailing separator.  Fails with
    InvalidURL if raw_url has no parseable host."  A URL is read as
    [scheme://authority] followed by a path, a query or a fragment, and the
    authority as [userinfo@host:port]; of these the host alone is kept. *)
Definition canonicalize (raw_url : string) : result string :=
  match cut_scheme raw_url with
  | None => inr InvalidURL
  | Some (scheme, rest) =>
    match after_slashes rest with
    | None => inr InvalidURL
    | Some r =>
      let host := canonical_host (host_component (authority r)) in
      if is_empty scheme || is_empty host then inr InvalidURL else inl host
    end
  end.

(** *** URLs that share a host

    The URLs the canonicalization is compared on: a scheme without a colon,
    [://], a host, and a tail that is empty or opens the path, the query or
    the fragment.  A host has none of the characters that end or divide an
    authority, and is not made of separators alone. *)

Fixpoint all_chars (p : ascii -> bool) (s : string) : bool :=
  match s with
  | EmptyString => true
  | String c r => p c && all_chars p r
  end.

Definition url_of (scheme host tail : string) : string :=
  scheme ++ "://" ++ host ++ tail.

(** The same with user information and a port in the authority. *)
Definition url_with (scheme userinfo host port tail : string) : string :=
  scheme ++ "://" ++ userinfo ++ "@" ++ host ++ ":" ++ port ++ tail.

Definition scheme_ok (scheme : string) : bool :=
  negb (is_empty scheme) && all_chars (fun c => negb (Ascii.eqb c ":")) scheme.

Definition host_char (c : ascii) : bool :=
  negb (ends_host c || Ascii.eqb c "@" || Ascii.eqb c ":" || Ascii.eqb c "[").

Definition host_ok (host : string) : bool :=
  all_chars host_char host && negb (is_empty (canonical_host host)).

(** User information and a port: no character that ends the authority, and
    no [@] in the port. *)
Definition userinfo_ok (userinfo : string) : bool :=
  all_chars (fun c => negb (ends_host c)) userinfo.

Definition port_ok (port : string) : bool :=
  all_chars (fun c => negb (ends_host c || Ascii.eqb c "@")) port.

Definition tail_ok (tail : string) : bool :=
  match tail with
  | EmptyString => true
  | String c _ => ends_host c
  end.

(** ** Reference collaborators

    Implementations of the interfaces, small enough to run: the stores of
    the specification's external interfaces and stand-ins for the packages. *)

Section Stores.

Variable Stamp : Type.

(** Modelled from the spec: the Tracked-Site Store behind [UseCase] (the use
    case and its repository are not among the sources).  The records, each
    under the owner it was inserted for, in insertion order;
    [findByOwnerAndHost], [getByID] and [listByOwner] are "pure reads scoped
    to the requesting owner". *)
Definition Sites : Type := list (string * Website Stamp).

Definition owned_host (userID hostName : string) (e : string * Website Stamp) : bool :=
  String.eqb (fst e) userID && String.eqb (HostName (snd e)) hostName.

Definition owned_id (userID websiteID : string) (e : string * Website Stamp) : bool :=
  String.eqb (fst e) userID && String.eqb (ID (snd e)) websiteID.

Definition owned (userID : string) (e : string * Website Stamp) : bool :=
  String.eqb (fst e) userID.

Definition sites_Find (db : Sites) (userID hostName : string) : result Z :=
  inl (Z.of_nat (List.length (filter (owned_host userID hostName) db))).

Definition sites_Get (db : Sites) (userID websiteID : string) : result (Website Stamp) :=
  match find (owned_id userID websiteID) db with
  | Some e => inl (snd e)
  | None => inr "no documents in result"
  end.

Definition sites_GetAll (db : Sites) (userID : string) : result (list (Website Stamp)) :=
  inl (map snd (filter (owned userID) db)).

(** A store that takes every insert. *)
Definition sites_Insert (db : Sites) (userID : string) (site : Website Stamp)
    : Sites * option error :=
  ((db ++ [(userID, site)])%list, None).

(** A store with a unique index on (owner, host): it rejects the second
    writer. *)
Definition sites_InsertUnique (db : Sites) (userID : string) (site : Website Stamp)
    : Sites * option error :=
  if existsb (owned_host userID (HostName site)) db
  then (db, Some "duplicate key")
  else ((db ++ [(userID, site)])%list, None).

Definition plain_store : UseCase Stamp Sites :=
  {| FindWebsite := sites_Find;
     InsertWebsite := sites_Insert;
     GetWebsite := sites_Get;
     GetAllWebsite := sites_GetAll |}.

Definition unique_store : UseCase Stamp Sites :=
  {| FindWebsite := sites_Find;
     InsertWebsite := sites_InsertUnique;
     GetWebsite := sites_Get;
     GetAllWebsite := sites_GetAll |}.

End Stores.

(** A store is faithful when a lookup sees what was inserted: after
    [InsertWebsite] succeeded for an owner, [FindWebsite] for that owner and
    the record's host succeeds and counts at least one. *)
Definition faithful {Stamp Db : Type} (uc : UseCase Stamp Db) : Prop :=
  forall (db db' : Db) (userID : string) (site : Website Stamp),
    InsertWebsite db userID site = (db', None) ->
    exists n : Z, FindWebsite db' userID (HostName site) = inl n /\ (0 < n)%Z.

(** Modelled from the spec: the Session Store behind [auth.UseCase]
    ([internal/app/auth] is not among the sources):
    [lookup(credential_id) -> (Principal, is_valid)] over the live
    sessions. *)
Fixpoint lookup_session (sessions : list (string * string)) (accessUUID : string)
    : result string :=
  match sessions with
  | [] => inr "session not found"
  | (k, userID) :: rest =>
    if String.eqb k accessUUID then inl userID else lookup_session rest accessUUID
  end.

Definition sessions_auth (sessions : list (string * string)) : auth_UseCase :=
  {| GetAuth := lookup_session sessions |}.

(** A stand-in for [security.ExtractAccessTokenMetadata]: the access
    identifier is what follows [Bearer ] in the Authorization header. *)
Fixpoint header_value (hs : list (string * string)) (key : string) : option string :=
  match hs with
  | [] => None
  | (k, v) :: rest => if String.eqb k key then Some v else header_value rest key
  end.

Definition bearer_Extract (r : http_Request) : result AccessDetails :=
  match header_value (Header r) "Authorization" with
  | None => inr "token not found"
  | Some v =>
    if String.prefix "Bearer " v
    then inl {| AccessUUID := String.substring 7 (String.length v - 7) v |}
    else inr "token is malformed"
  end.

(** A stand-in for gin's JSON binding: the body holds the name on its first
    line and the URL on the second. *)
Fixpoint cut_line (s : string) : option (string * string) :=
  match s with
  | EmptyString => None
  | String c r =>
    if Ascii.eqb c (ascii_of_nat 10) then Some (EmptyString, r)
    else
      match cut_line r with
      | Some (l, rest) => Some (String c l, rest)
      | None => None
      end
  end.

Definition lines_Bind (r : http_Request) : result RequestWebsite :=
  match cut_line (Body r) with
  | Some (name, url) => inl {| Name := name; URL := url |}
  | None => inr "unexpected end of input"
  end.

(** A stand-in for [security.Hash]: the host under a prefix (injective, so
    without collisions). *)
Definition prefix_Hash (value : string) : string := "site:" ++ value.

Definition prefix_digest : Digest := {| Hash := prefix_Hash |}.

(** A stand-in for [time.Time] and its formatting: the time is a number of
    seconds, formatted as that many ticks after the layout. *)
Fixpoint ticks_string (n : nat) : string :=
  match n with
  | O => EmptyString
  | S k => String "'" (ticks_string k)
  end.

Definition ticks_Format (t : nat) (layout : string) : string :=
  layout ++ ticks_string t.

(** [dur.ParseTime] keeping the text, and one that refuses every text. *)
Definition text_ParseTime (value : string) : result string := inl value.
Definition failing_ParseTime (value : string) : result string :=
  inr ("cannot parse " ++ value).

Definition reference_packages (parse_time : string -> result string)
    : Packages nat string :=
  {| ShouldBindJSON := lines_Bind;
     ParseURL := canonicalize;
     ExtractAccessTokenMetadata := bearer_Extract;
     Format := ticks_Format;
     ParseTime := parse_time |}.

(** The clock of the examples: one second per reading, from 1. *)
Definition seconds_clock (n : nat) : nat := 1 + n.

(** ** Outcomes *)

Section Outcomes.

Context {Time Stamp Db : Type}.
Context {pkg : Packages Time Stamp} {digest : Digest}.
Context {auth : auth_UseCase} {uc : UseCase Stamp Db}.
Variable clock : nat -> Time.

(** The resolution of the caller every handler starts from (in [AddWebsite],
    after the payload checks): the access identifier is extracted from the
    request and looked up; the first error ends it. *)
Definition resolve (r : http_Request) : result string :=
  match ExtractAccessTokenMetadata r with
  | inr err => inr err
  | inl tokenAuth => GetAuth (AccessUUID tokenAuth)
  end.

(** The payload checks of [AddWebsite] passed: the body was bound and the
    bound request is valid. *)
Definition payload_of (c : gin_Context) (request : RequestWebsite) : Prop :=
  ShouldBindJSON (Request c) = inl request /\ validate_Struct request = None.

Definition statuses (tr : list (@Event Time Stamp)) : list Z :=
  map (@status Stamp) (responses tr).


(** The outcomes the specification names for an unparseable URL and for a
    read of an identifier the caller does not own. *)
Definition bad_input (tr : list (@Event Time Stamp)) : Prop :=
  statuses tr = [StatusBadRequest].

Definition not_found (tr : list (@Event Time Stamp)) : Prop :=
  statuses tr = [StatusNotFound].

(** The outcome the specification asks of two registrations of one host by
    one owner: one of them created the record and answered 200, the other
    answered 409, and the store took one record in all. *)
Definition one_created_one_conflict (pl : @Pool Time Stamp Db) : Prop :=
  ((statuses (first_trace pl) = [StatusOK] /\ statuses (second_trace pl) = [StatusConflict])
   \/ (statuses (first_trace pl) = [StatusConflict] /\ statuses (second_trace pl) = [StatusOK]))
  /\ List.length (created (first_trace pl ++ second_trace pl)) = 1%nat.

(** A call whose answer does not depend on the world and which leaves the
    world as it is: any but those of the website use case and the clock. *)
Definition blind_call {X : Type} (call : Call Time Stamp X) : bool :=
  match call with
  | websiteUseCase_FindWebsite _ _ => false
  | websiteUseCase_InsertWebsite _ _ => false
  | websiteUseCase_GetWebsite _ _ => false
  | websiteUseCase_GetAllWebsite _ => false
  | time_Now => false
  | _ => true
  end.

Definition world_blind (e : @Event Time Stamp) : bool :=
  match e with Ev call _ => blind_call call end.

(** A call that leaves the world as it is: any but the insert and the
    reading of the clock. *)
Definition still_call {X : Type} (call : Call Time Stamp X) : bool :=
  match call with
  | websiteUseCase_InsertWebsite _ _ => false
  | time_Now => false
  | _ => true
  end.

Definition still (e : @Event Time Stamp) : bool :=
  match e with Ev call _ => still_call call end.

(** A program that, run in the world [W], makes still calls only. *)
Definition quiet (W : @World Db) (p : Prog Time Stamp) : Prop :=
  forallb still (fst (run clock p W)) = true.

(** What follows the first insert of a trace. *)
Fixpoint after_insert (tr : list (@Event Time Stamp)) : list (@Event Time Stamp) :=
  match tr with
  | [] => []
  | e :: tr' =>
    match insert_of e with
    | Some _ => tr'
    | None => after_insert tr'
    end
  end.

(** The trace of one of the two handlers, the pool with the handlers
    exchanged, and the number of turns a schedule gives a handler. *)
Definition trace_of (who : bool) (pl : @Pool Time Stamp Db) : list (@Event Time Stamp) :=
  if who then first_trace pl else second_trace pl.

Definition swap (pl : @Pool Time Stamp Db) : @Pool Time Stamp Db :=
  {| first := second pl; second := first pl; shared := shared pl;
     first_trace := second_trace pl; second_trace := first_trace pl |}.

Definition turns (who : bool) (sched : list bool) : nat :=
  List.length (filter (Bool.eqb who) sched).

(** The next call of the second handler, if any, is blind. *)
Definition second_blind (pl : @Pool Time Stamp Db) : Prop :=
  match second pl with
  | Return => True
  | Vis call _ => blind_call call = true
  end.

(** What a pool is bound to end with when no call changes the world [W]:
    the traces of the handlers, each run alone in [W]. *)
Definition ends_with (W : @World Db) (pl : @Pool Time Stamp Db)
    (tr1 tr2 : list (@Event Time Stamp)) : Prop :=
  shared pl = W
  /\ quiet W (first pl) /\ quiet W (second pl)
  /\ (first_trace pl ++ fst (run clock (first pl) W))%list = tr1
  /\ (second_trace pl ++ fst (run clock (second pl) W))%list = tr2.

(** A schedule in which the handlers overlap and the first inserts before
    the second looks up: the handlers alternate for four calls each, the
    first runs on through its insert, and each finishes. *)
Definition overlap_until_insert : list bool :=
  ([true; false; true; false; true; false; true; false] ++ repeat true 6)%list.

Definition overlap_rest : list bool := [true; false; false].

(** What the client receives.  net/http answers every request whose handler
    returns: with the status the handler wrote first and the bodies it wrote,
    or, when the handler wrote nothing, with 200 and an empty body. *)
Definition client_status (tr : list (@Event Time Stamp)) : Z :=
  match statuses tr with
  | code :: _ => code
  | [] => StatusOK
  end.

Definition client_view (tr : list (@Event Time Stamp)) : option (Z * list (Payload Stamp)) :=
  Some (client_status tr, map (@payload Stamp) (responses tr)).

(** A request without an observable result: the client receives no
    answer. *)
Definition no_observable_result (tr : list (@Event Time Stamp)) : Prop :=
  client_view tr = None.

(** The schedule of a race: each handler runs up to and including its
    [FindWebsite] (its fifth call), then each runs on to its return. *)
Definition race : list bool :=
  repeat true 5 ++ repeat false 5 ++ repeat true 6 ++ repeat false 6.

End Outcomes.

(** ** Example requests *)

Definition example_context (token name url : string) (params : list (string * string))
    : gin_Context :=
  {| Request :=
       {| Header := [("Authorization", "Bearer " ++ token)];
          Body := name ++ newline ++ url |};
     Params := params |}.

Definition example_auth : auth_UseCase :=
  sessions_auth [("access-1", "u1"); ("access-2", "u2")].

Definition empty_world : @World (Sites string) := {| store := []; ticks := 0 |}.

(** A run with the reference collaborators over a store [uc]. *)
Definition example_run (uc : UseCase string (Sites string))
    (parse_time : string -> result string)
    (p : Prog nat string) (w : @World (Sites string)) :=
  @run nat string (Sites string) (reference_packages parse_time) prefix_digest
    example_auth uc seconds_clock p w.

Definition example_interleave (uc : UseCase string (Sites string))
    (sched : list bool) (pl : @Pool nat string (Sites string)) :=
  @interleave nat string (Sites string) (reference_packages text_ParseTime)
    prefix_digest example_auth uc seconds_clock sched pl.


(** The requests of the examples: the two of the specification ([My Site]
    and its duplicate under another scheme, case and path), the same host
    for a second owner, a name of one character, a URL without a host, a
    credential without a session (with and without a host in the URL), and a
    read by the first owner. *)
Definition my_site : gin_Context :=
  example_context "access-1" "My Site" "https://Example.com/path?x=1" [].

Definition dup : gin_Context :=
  example_context "access-1" "dup" "http://EXAMPLE.COM/" [].

Definition their_site : gin_Context :=
  example_context "access-2" "Their Site" "https://example.com" [].

Definition short_name : gin_Context :=
  example_context "access-1" "M" "https://example.com" [].

Definition no_host : gin_Context :=
  example_context "access-1" "My Site" "no host here" [].



Definition read_by_u1 : gin_Context :=
  example_context "access-1" "" "" [("website_id", "site:example.com")].

(** The record of a registration at the first reading of the clock. *)
Definition example_site (userID name url : string) : Website string :=
  {| ID := "site:example.com";
     UserID := userID;
     WName := name;
     HostName := "example.com";
     WURL := url;
     Tracked := false;
     CreatedAt := "2006-01-02, 15:04:05'";
     UpdatedAt := "2006-01-02, 15:04:05'" |}.

(** The world after the second owner registered the host. *)
Definition world_of_u2 : @World (Sites string) :=
  {| store := [("u2", example_site "u2" "Their Site" "https://example.com")];
     ticks := 1 |}.

(** The outcomes, with the reference collaborators. *)
Definition example_resolve (r : http_Request) : result string :=
  @resolve nat string (reference_packages text_ParseTime) example_auth r.

Definition example_payload_of (c : gin_Context) (request : RequestWebsite) : Prop :=
  @payload_of nat string (reference_packages text_ParseTime) c request.


(** ** Further readings of a trace *)

Section Readings.

Context {Time Stamp Db : Type}.
Context {pkg : Packages Time Stamp} {digest : Digest}.
Context {auth : auth_UseCase} {uc : UseCase Stamp Db}.
Variable clock : nat -> Time.

(** The user a call of the website use case is made for. *)
Definition store_owner_of (e : @Event Time Stamp) : option string :=
  match e with
  | Ev (websiteUseCase_FindWebsite userID _) _ => Some userID
  | Ev (websiteUseCase_InsertWebsite userID _) _ => Some userID
  | Ev (websiteUseCase_GetWebsite userID _) _ => Some userID
  | Ev (websiteUseCase_GetAllWebsite userID) _ => Some userID
  | Ev _ _ => None
  end.

(** Every call of the website use case in the trace is made for the user
    the request resolves to. *)
Definition for_resolved_caller (c : gin_Context) (tr : list (@Event Time Stamp)) : Prop :=
  Forall (fun e => match store_owner_of e with
                   | Some userID => resolve (Request c) = inl userID
                   | None => True
                   end) tr.

(** A handler that only reads: one response, no insert, no clock reading,
    the world as it was. *)
Definition read_only (p : Prog Time Stamp) (w : @World Db) : Prop :=
  List.length (responses (fst (run clock p w))) = 1%nat
  /\ inserts (fst (run clock p w)) = []
  /\ clock_reads (fst (run clock p w)) = 0%nat
  /\ snd (run clock p w) = w.

(** The statuses [AddWebsite] writes. *)
Definition AddWebsite_codes : list Z :=
  [StatusOK; StatusBadRequest; StatusUnauthorized; StatusConflict;
   StatusInternalServerError].

End Readings.

(** Bytes below [utf8.RuneSelf]. *)
Definition is_ascii (c : ascii) : bool := (nat_of_ascii c <? 128)%nat.

(** A request without a session and one whose body does not bind. *)
Definition unbound : gin_Context :=
  {| Request := {| Header := [("Authorization", "Bearer access-1")];
                   Body := "no second line" |};
     Params := [] |}.

(** A store whose lookup or whose insert fails. *)
Definition failing_Find {Stamp : Type} (db : Sites Stamp) (userID hostName : string)
    : result Z :=
  inr "context deadline exceeded".

Definition failing_Insert {Stamp : Type} (db : Sites Stamp) (userID : string)
    (site : Website Stamp) : Sites Stamp * option error :=
  (db, Some "context deadline exceeded").

Definition lookup_down_store (Stamp : Type) : UseCase Stamp (Sites Stamp) :=
  {| FindWebsite := failing_Find;
     InsertWebsite := @sites_Insert Stamp;
     GetWebsite := @sites_Get Stamp;
     GetAllWebsite := @sites_GetAll Stamp |}.

Definition insert_down_store (Stamp : Type) : UseCase Stamp (Sites Stamp) :=
  {| FindWebsite := @sites_Find Stamp;
     InsertWebsite := failing_Insert;
     GetWebsite := @sites_Get Stamp;
     GetAllWebsite := @sites_GetAll Stamp |}.

(** The read of the second owner's record by its owner. *)
Definition read_by_u2 : gin_Context :=
  example_context "access-2" "" "" [("website_id", "site:example.com")].
Unset Implicit Arguments.
Local Open Scope list_scope.

(** * Properties *)

(** ** Validation *)

Lemma validate_Struct_rejects (request : RequestWebsite) :
  (RuneCountInString (Name request) < 2
   \/ 100 < RuneCountInString (Name request)
   \/ RuneCountInString (URL request) < 3)%nat ->
  exists msg : error, validate_Struct request = Some msg.
Proof.
  intros Hbad. unfold validate_Struct, field_errors, validate_Name, validate_URL.
  destruct (is_empty (Name request)); [cbn; eauto |].
  destruct (RuneCountInString (Name request) <? 2)%nat eqn:Hmin; [cbn; eauto |].
  destruct (100 <? RuneCountInString (Name request))%nat eqn:Hmax; [cbn; eauto |].
  destruct (is_empty (URL request)); [cbn; eauto |].
  destruct (RuneCountInString (URL request) <? 3)%nat eqn:Hurl; [cbn; eauto |].
  apply Nat.ltb_ge in Hmin, Hmax, Hurl. lia.
Qed.

Lemma validate_Struct_accepts (request : RequestWebsite) :
  validate_Struct request = None ->
  (2 <= RuneCountInString (Name request) <= 100
   /\ 3 <= RuneCountInString (URL request))%nat.
Proof.
  intros Hok.
  assert (Hn : ~ (RuneCountInString (Name request) < 2
                  \/ 100 < RuneCountInString (Name request)
                  \/ RuneCountInString (URL request) < 3)%nat).
  { intros Hbad. destruct (validate_Struct_rejects request Hbad) as [msg Hmsg].
    congruence. }
  lia.
Qed.

(** The name and the URL are measured in runes, not in bytes: a name of two
    bytes that encode one rune is too short, and an ill-formed byte counts
    for one rune. *)
Example RuneCountInString_two_bytes :
  RuneCountInString (String (ascii_of_nat 195) (String (ascii_of_nat 169) "")) = 1%nat
  /\ validate_Name (String (ascii_of_nat 195) (String (ascii_of_nat 169) ""))
     = Some (mkFieldError "Name" "min").
Proof. split; reflexivity. Qed.

Example RuneCountInString_ill_formed :
  RuneCountInString (String (ascii_of_nat 195) "a") = 2%nat
  /\ RuneCountInString (String (ascii_of_nat 226) (String (ascii_of_nat 130)
                          (String (ascii_of_nat 172) "!"))) = 2%nat.
Proof. split; reflexivity. Qed.

(** ** The handlers, one request at a time *)

(** Following a handler down its branches: the calls are answered, and the
    answer the next branch tests is split into its cases. *)
Ltac answer_calls :=
  cbn [run answer step fst snd responses inserts logged parse_time_failures
       clock_reads created statuses collect response_of insert_of log_of
       parse_time_failure_of is_clock_read is_canonicalization
       is_authentication is_store_access existsb filter map List.length
       orb status store ticks].

Ltac split_answer :=
  match goal with
  | |- context [match ?x with inl _ => _ | inr _ => _ end] => destruct x eqn:?
  | |- context [match ?x with Some _ => _ | None => _ end] => destruct x eqn:?
  | |- context [if ?b then _ else _] => destruct b eqn:?
  | |- context [InsertWebsite ?db ?userID ?site] =>
    destruct (InsertWebsite db userID site) eqn:?
  end.

Ltac walk := answer_calls; repeat (split_answer; answer_calls).

Section Claims.

Context {Time Stamp Db : Type}.
Context {pkg : Packages Time Stamp} {digest : Digest}.
Context {auth : auth_UseCase} {uc : UseCase Stamp Db}.
Variable clock : nat -> Time.

Implicit Types (c : gin_Context) (w : @World Db).

Lemma AddWebsite_invalid_trace c w (request : RequestWebsite) (msg : error) :
  ShouldBindJSON (Request c) = inl request ->
  validate_Struct request = Some msg ->
  run clock (httpDelivery.AddWebsite c) w =
    ([Ev (c_ShouldBindJSON (Request c)) (inl request);
      Ev (c_JSON StatusBadRequest (gin_H "error" msg)) tt], w).
Proof.
  intros Hbind Hmsg. unfold httpDelivery.AddWebsite. cbn [run answer].
  rewrite Hbind, Hmsg. reflexivity.
Qed.

(** C9. A registration whose name has fewer than 2 or more than 100
    characters, or whose URL has fewer than 3, is answered 400 Bad Request
    straight after the binding: no canonicalization, no authentication and no
    store access has taken place, and the world is as it was. *)
Theorem AddWebsite_rejects_invalid_payload c w (request : RequestWebsite) :
  ShouldBindJSON (Request c) = inl request ->
  (RuneCountInString (Name request) < 2
   \/ 100 < RuneCountInString (Name request)
   \/ RuneCountInString (URL request) < 3)%nat ->
  let tr := fst (run clock (httpDelivery.AddWebsite c) w) in
  statuses tr = [StatusBadRequest]
  /\ existsb is_canonicalization tr = false
  /\ existsb is_authentication tr = false
  /\ existsb is_store_access tr = false
  /\ snd (run clock (httpDelivery.AddWebsite c) w) = w.
Proof.
  intros Hbind Hbad.
  destruct (validate_Struct_rejects request Hbad) as [msg Hmsg].
  cbv zeta. rewrite (AddWebsite_invalid_trace c w request msg Hbind Hmsg).
  repeat split.
Qed.






(** C10, as the code has it.  When the derivation of the creation time
    fails ([dur.ParseTime] answers with an error), [AddWebsite] logs that
    error and returns: it has written no response, called no insert, and the
    store is as it was.  The client is then answered as for every handler
    that wrote nothing: 200 with an empty body. *)
Theorem AddWebsite_time_failure_default_answer c w :
  parse_time_failures (fst (run clock (httpDelivery.AddWebsite c) w)) <> [] ->
  let tr := fst (run clock (httpDelivery.AddWebsite c) w) in
  responses tr = []
  /\ inserts tr = []
  /\ logged tr = parse_time_failures tr
  /\ store (snd (run clock (httpDelivery.AddWebsite c) w)) = store w
  /\ client_view tr = Some (StatusOK, []).
Proof.
  unfold httpDelivery.AddWebsite, httpDelivery.create, client_view, client_status.
  cbv zeta.
  walk; intros Hfail; try (exfalso; apply Hfail; reflexivity);
    repeat split.
Qed.


(** On every path of [AddWebsite] that reaches [InsertWebsite], the record
    handed to the store is the one built from the request, the host, the
    owner, the digest and the single clock reading. *)
Lemma AddWebsite_inserts c w (site : Website Stamp) (taken : bool) :
  In (site, taken) (inserts (fst (run clock (httpDelivery.AddWebsite c) w))) ->
  exists request : RequestWebsite,
    payload_of c request
    /\ ParseURL (URL request) = inl (HostName site)
    /\ resolve (Request c) = inl (UserID site)
    /\ ParseTime (Format (clock (ticks w)) httpDelivery.layout) = inl (CreatedAt site)
    /\ site = {| ID := Hash (HostName site);
                 UserID := UserID site;
                 WName := Name request;
                 HostName := HostName site;
                 WURL := URL request;
                 Tracked := false;
                 CreatedAt := CreatedAt site;
                 UpdatedAt := CreatedAt site |}
    /\ clock_reads (fst (run clock (httpDelivery.AddWebsite c) w)) = 1%nat.
Proof.
  unfold httpDelivery.AddWebsite, httpDelivery.create.
  walk; intros Hin; cbn [In] in Hin; try contradiction;
    destruct Hin as [Hin | []]; inversion Hin; subst; clear Hin;
    cbn [ID UserID HostName CreatedAt];
    unfold payload_of, resolve;
    eexists; repeat split; eauto;
    repeat match goal with H : _ = _ |- _ => rewrite H end; reflexivity.
Qed.

(** C5. Every record [AddWebsite] hands to the store has [Tracked] false and
    [CreatedAt] equal to [UpdatedAt]: both are the one value parsed from the
    formatted reading of the clock, which the handler reads once. *)
Theorem AddWebsite_fresh_record c w (site : Website Stamp) (taken : bool) :
  In (site, taken) (inserts (fst (run clock (httpDelivery.AddWebsite c) w))) ->
  Tracked site = false
  /\ CreatedAt site = UpdatedAt site
  /\ ParseTime (Format (clock (ticks w)) httpDelivery.layout) = inl (CreatedAt site)
  /\ clock_reads (fst (run clock (httpDelivery.AddWebsite c) w)) = 1%nat.
Proof.
  intros Hin.
  destruct (AddWebsite_inserts c w site taken Hin)
    as (request & _ & _ & _ & Htime & Hsite & Hreads).
  rewrite Hsite at 1 2 3. cbn [Tracked CreatedAt UpdatedAt]. auto.
Qed.


(** C6, as the code has it.  A request that passed the payload checks and
    whose URL [str.ParseURL] refuses is answered 500 Internal Server Error
    with the message of the parse failure; the caller was not resolved, the
    store was not called and the world is as it was. *)
Theorem AddWebsite_invalid_url_is_internal_error c w (request : RequestWebsite)
    (err : error) :
  payload_of c request ->
  ParseURL (URL request) = inr err ->
  let tr := fst (run clock (httpDelivery.AddWebsite c) w) in
  responses tr =
    [mkResponse StatusInternalServerError
       (gin_H "msg" "error occured while parse url the website")]
  /\ existsb is_authentication tr = false
  /\ existsb is_store_access tr = false
  /\ snd (run clock (httpDelivery.AddWebsite c) w) = w.
Proof.
  intros [Hbind Hvalid] Hparse. cbv zeta.
  unfold httpDelivery.AddWebsite. answer_calls.
  rewrite Hbind, Hvalid. answer_calls. rewrite Hparse. answer_calls.
  repeat split.
Qed.

(** Whatever the request and the store, [GetWebsite] answers 401, 500 or
    200. *)
Lemma GetWebsite_statuses c w (code : Z) :
  In code (statuses (fst (run clock (httpDelivery.GetWebsite c) w))) ->
  code = StatusUnauthorized \/ code = StatusInternalServerError \/ code = StatusOK.
Proof.
  unfold httpDelivery.GetWebsite.
  walk; intros Hin; cbn [In] in Hin; destruct Hin as [Hin | []]; auto.
Qed.

(** C7, as the code has it.  When the use case answers the read with an
    error, as a store scoped to the caller does for an identifier the caller
    does not own and for a missing one alike, [GetWebsite] answers 500
    Internal Server Error with one fixed message, whatever the error: neither
    403 Forbidden nor 404 Not Found, and nothing of the error is passed on. *)
Theorem GetWebsite_store_error_is_internal_error c w (userID : string)
    (err : error) :
  resolve (Request c) = inl userID ->
  GetWebsite (store w) userID (Param c "website_id") = inr err ->
  responses (fst (run clock (httpDelivery.GetWebsite c) w)) =
    [mkResponse StatusInternalServerError
       (gin_H "error" "error occured while get the website by id")]
  /\ StatusInternalServerError <> StatusForbidden
  /\ StatusInternalServerError <> StatusNotFound
  /\ snd (run clock (httpDelivery.GetWebsite c) w) = w.
Proof.
  unfold resolve. intros Hres Hget.
  destruct (ExtractAccessTokenMetadata (Request c)) as [tokenAuth | e] eqn:Hextract;
    [| discriminate].
  unfold httpDelivery.GetWebsite. answer_calls.
  rewrite Hextract. answer_calls. rewrite Hres. answer_calls.
  rewrite Hget. answer_calls. repeat split; discriminate.
Qed.

(** The second registration of a host its owner already has: 409 Conflict,
    no insert, the world as it was. *)
Lemma AddWebsite_conflict c w (request : RequestWebsite) (hostName userID : string)
    (n : Z) :
  payload_of c request ->
  ParseURL (URL request) = inl hostName ->
  resolve (Request c) = inl userID ->
  FindWebsite (store w) userID hostName = inl n ->
  (0 < n)%Z ->
  responses (fst (run clock (httpDelivery.AddWebsite c) w)) =
    [mkResponse StatusConflict (gin_H "msg" "this website already exists")]
  /\ inserts (fst (run clock (httpDelivery.AddWebsite c) w)) = []
  /\ snd (run clock (httpDelivery.AddWebsite c) w) = w.
Proof.
  unfold resolve. intros [Hbind Hvalid] Hparse Hres Hfind Hpos.
  destruct (ExtractAccessTokenMetadata (Request c)) as [tokenAuth | e] eqn:Hextract;
    [| discriminate].
  unfold httpDelivery.AddWebsite. answer_calls.
  rewrite Hbind, Hvalid. answer_calls. rewrite Hparse. answer_calls.
  rewrite Hextract. answer_calls. rewrite Hres. answer_calls.
  rewrite Hfind. apply Z.ltb_lt in Hpos. rewrite Hpos. answer_calls.
  repeat split.
Qed.

(** A registration answered 200 with a record: the store took that record
    for its owner. *)
Lemma AddWebsite_created c w (site : Website Stamp) :
  responses (fst (run clock (httpDelivery.AddWebsite c) w)) =
    [mkResponse StatusOK (website_json site)] ->
  InsertWebsite (store w) (UserID site) site =
    (store (snd (run clock (httpDelivery.AddWebsite c) w)), None)
  /\ inserts (fst (run clock (httpDelivery.AddWebsite c) w)) = [(site, true)].
Proof.
  unfold httpDelivery.AddWebsite, httpDelivery.create.
  walk; intros Hresp; inversion Hresp; subst; clear Hresp;
    cbn [UserID] in *; split; congruence.
Qed.

(** A registration answered 200 with a record: the record is of the host
    of the request and of the resolved caller. *)
Lemma AddWebsite_created_for c w (request : RequestWebsite) (userID : string)
    (site : Website Stamp) :
  payload_of c request ->
  resolve (Request c) = inl userID ->
  responses (fst (run clock (httpDelivery.AddWebsite c) w)) =
    [mkResponse StatusOK (website_json site)] ->
  ParseURL (URL request) = inl (HostName site) /\ UserID site = userID.
Proof.
  intros [Hbind _] Hres Hresp.
  destruct (AddWebsite_created c w site Hresp) as [_ Hins].
  assert (Hin : In (site, true)
                   (inserts (fst (run clock (httpDelivery.AddWebsite c) w)))).
  { rewrite Hins. left. reflexivity. }
  destruct (AddWebsite_inserts c w site true Hin)
    as (request' & [Hbind' _] & Hparse & Hres' & _).
  assert (request' = request) by congruence. subst request'.
  split; [exact Hparse | congruence].
Qed.

(** C2. After a registration answered 200, a second registration by the
    same owner of a URL with the same canonical host is answered 409 Conflict
    with a message (not an error), calls no insert and leaves the world, and
    with it the first registration, as it was.  The store is faithful: its
    lookup sees the record it took. *)
Theorem AddWebsite_second_is_conflict (Hstore : faithful uc) c1 c2 w
    (request1 request2 : RequestWebsite) (userID : string) (site : Website Stamp) :
  let w1 := snd (run clock (httpDelivery.AddWebsite c1) w) in
  payload_of c1 request1 ->
  payload_of c2 request2 ->
  ParseURL (URL request2) = ParseURL (URL request1) ->
  resolve (Request c1) = inl userID ->
  resolve (Request c2) = inl userID ->
  responses (fst (run clock (httpDelivery.AddWebsite c1) w)) =
    [mkResponse StatusOK (website_json site)] ->
  responses (fst (run clock (httpDelivery.AddWebsite c2) w1)) =
    [mkResponse StatusConflict (gin_H "msg" "this website already exists")]
  /\ inserts (fst (run clock (httpDelivery.AddWebsite c2) w1)) = []
  /\ snd (run clock (httpDelivery.AddWebsite c2) w1) = w1.
Proof.
  intros w1 Hpayload1 Hpayload2 Hsame Hres1 Hres2 Hfirst.
  destruct (AddWebsite_created_for c1 w request1 userID site Hpayload1 Hres1 Hfirst)
    as [Hhost Howner].
  destruct (AddWebsite_created c1 w site Hfirst) as [Hinsert _].
  destruct (Hstore _ _ _ _ Hinsert) as (n & Hfind & Hpos).
  rewrite Howner in Hfind. rewrite Hhost in Hsame.
  exact (AddWebsite_conflict c2 w1 request2 (HostName site) userID n
           Hpayload2 Hsame Hres2 Hfind Hpos).
Qed.

(** ** Two handlers over one store *)

Lemma collect_app {A B : Type} (f : A -> option B) (l1 l2 : list A) :
  collect f (l1 ++ l2) = collect f l1 ++ collect f l2.
Proof.
  induction l1 as [| a l1 IH]; cbn [collect app]; [reflexivity |].
  destruct (f a); cbn [app]; rewrite IH; reflexivity.
Qed.

Lemma interleave_app (s1 s2 : list bool) (pl : @Pool Time Stamp Db) :
  interleave clock (s1 ++ s2) pl = interleave clock s2 (interleave clock s1 pl).
Proof. unfold interleave. apply fold_left_app. Qed.

Lemma interleave_cons (who : bool) (sched : list bool) (pl : @Pool Time Stamp Db) :
  interleave clock (who :: sched) pl = interleave clock sched (turn clock who pl).
Proof. reflexivity. Qed.

Lemma interleave_nil (pl : @Pool Time Stamp Db) : interleave clock [] pl = pl.
Proof. reflexivity. Qed.

Ltac turn_calls :=
  cbn [turn step answer first second shared first_trace second_trace app store ticks].

Ltac one_turn := rewrite interleave_cons; turn_calls.

Ltac split_turn :=
  match goal with
  | |- context [InsertWebsite ?db ?userID ?site] =>
    destruct (InsertWebsite db userID site) as [? [? |]]
  | |- context [match ?x with inl _ => _ | inr _ => _ end] => destruct x
  end; turn_calls.

(** The race, whatever the store: both handlers look the host up before
    either inserts, both find nothing, and neither is answered 409. *)
Lemma AddWebsite_race_no_conflict c1 c2 w
    (request1 request2 : RequestWebsite) (hostName userID : string) (n : Z) :
  payload_of c1 request1 ->
  payload_of c2 request2 ->
  ParseURL (URL request1) = inl hostName ->
  ParseURL (URL request2) = inl hostName ->
  resolve (Request c1) = inl userID ->
  resolve (Request c2) = inl userID ->
  FindWebsite (store w) userID hostName = inl n ->
  (n <= 0)%Z ->
  let pl := interleave clock race
              (start (httpDelivery.AddWebsite c1) (httpDelivery.AddWebsite c2) w) in
  finished pl = true
  /\ ~ In StatusConflict (statuses (first_trace pl))
  /\ ~ In StatusConflict (statuses (second_trace pl))
  /\ ~ one_created_one_conflict pl.
Proof.
  intros Hp1 Hp2 Hparse1 Hparse2 Hres1 Hres2 Hfind Hle pl.
  assert (Hrace : finished pl = true
                  /\ ~ In StatusConflict (statuses (first_trace pl))
                  /\ ~ In StatusConflict (statuses (second_trace pl))).
  2: { destruct Hrace as (Hfin & Hno1 & Hno2). repeat split; auto.
       intros [[[_ H2] | [H1 _]] _].
       - apply Hno2. rewrite H2. left. reflexivity.
       - apply Hno1. rewrite H1. left. reflexivity. }
  subst pl. revert Hp1 Hp2 Hparse1 Hparse2 Hres1 Hres2 Hfind Hle.
  unfold resolve. intros [Hbind1 Hvalid1] [Hbind2 Hvalid2] Hparse1 Hparse2 Hres1 Hres2 Hfind Hle.
  destruct (ExtractAccessTokenMetadata (Request c1)) as [tok1 | e1] eqn:Hx1; [| discriminate].
  destruct (ExtractAccessTokenMetadata (Request c2)) as [tok2 | e2] eqn:Hx2; [| discriminate].
  apply Z.ltb_ge in Hle.
  unfold race, start, httpDelivery.AddWebsite, httpDelivery.create.
  cbn [repeat app].
  one_turn. rewrite Hbind1, Hvalid1. one_turn. rewrite Hparse1. one_turn.
  rewrite Hx1. one_turn. rewrite Hres1. one_turn. rewrite Hfind, Hle.
  one_turn. rewrite Hbind2, Hvalid2. one_turn. rewrite Hparse2. one_turn.
  rewrite Hx2. one_turn. rewrite Hres2. one_turn. rewrite Hfind, Hle.
  repeat first [split_turn | one_turn].
  all: rewrite interleave_nil.
  all: cbn [finished first second first_trace second_trace statuses responses
            collect response_of map status In].
  all: repeat split; intros Hin;
    repeat (destruct Hin as [Hin | Hin]; [discriminate Hin |]); exact Hin.
Qed.

(** *** Calls that do not touch the world *)

Lemma answer_blind {X : Type} (call : Call Time Stamp X) w w' :
  blind_call call = true ->
  answer clock call w = (fst (answer clock call w'), w).
Proof. destruct call; cbn; intros Hblind; try reflexivity; discriminate. Qed.

Lemma answer_still {X : Type} (call : Call Time Stamp X) w :
  still_call call = true -> snd (answer clock call w) = w.
Proof.
  destruct call; cbn; intros Hstill; try reflexivity; try discriminate.
Qed.

Lemma turn_true_keeps_second (pl : @Pool Time Stamp Db) :
  second (turn clock true pl) = second pl
  /\ second_trace (turn clock true pl) = second_trace pl.
Proof.
  unfold turn. destruct (step clock (first pl) (shared pl)) as [[[e p] w1] |];
    split; reflexivity.
Qed.

Lemma turn_false_keeps_first (pl : @Pool Time Stamp Db) :
  first (turn clock false pl) = first pl
  /\ first_trace (turn clock false pl) = first_trace pl.
Proof.
  unfold turn. destruct (step clock (second pl) (shared pl)) as [[[e p] w1] |];
    split; reflexivity.
Qed.

Lemma false_turns_keep_first (m : nat) : forall pl : @Pool Time Stamp Db,
  first (interleave clock (repeat false m) pl) = first pl
  /\ first_trace (interleave clock (repeat false m) pl) = first_trace pl.
Proof.
  induction m as [| m IH]; intros pl; [split; reflexivity |].
  cbn [repeat]. rewrite interleave_cons.
  destruct (IH (turn clock false pl)) as [IH1 IH2].
  destruct (turn_false_keeps_first pl) as [H1 H2].
  rewrite IH1, IH2, H1, H2. split; reflexivity.
Qed.

(** The trace of the second handler only grows. *)
Lemma turn_second_trace (who : bool) (pl : @Pool Time Stamp Db) :
  exists ext, second_trace (turn clock who pl) = second_trace pl ++ ext.
Proof.
  destruct who; unfold turn.
  - destruct (step clock (first pl) (shared pl)) as [[[e p] w1] |];
      exists []; cbn; rewrite app_nil_r; reflexivity.
  - destruct (step clock (second pl) (shared pl)) as [[[e p] w1] |].
    + exists [e]. reflexivity.
    + exists []. rewrite app_nil_r. reflexivity.
Qed.

Lemma second_trace_grows (s : list bool) : forall pl : @Pool Time Stamp Db,
  exists ext, second_trace (interleave clock s pl) = second_trace pl ++ ext.
Proof.
  induction s as [| who s IH]; intros pl.
  - exists []. rewrite interleave_nil, app_nil_r. reflexivity.
  - rewrite interleave_cons. destruct (IH (turn clock who pl)) as [ext Hext].
    destruct (turn_second_trace who pl) as [ext0 Hext0].
    exists (ext0 ++ ext). rewrite Hext, Hext0, app_assoc. reflexivity.
Qed.

(** A blind turn of the second handler and a turn of the first can be
    exchanged. *)
Lemma turn_commute (pl : @Pool Time Stamp Db) :
  second_blind pl ->
  turn clock true (turn clock false pl) = turn clock false (turn clock true pl).
Proof.
  unfold second_blind. destruct pl as [p1 p2 w0 tr1 tr2]. cbn [second].
  destruct p2 as [| X2 call2 k2]; intros Hblind.
  - destruct p1 as [| X1 call1 k1]; cbn [turn step first second shared]; [reflexivity |].
    destruct (answer clock call1 w0) as [x1 w1]. reflexivity.
  - destruct p1 as [| X1 call1 k1].
    + cbn [turn step first second shared first_trace second_trace].
      destruct (answer clock call2 w0) as [x2 w2]. reflexivity.
    + cbn [turn step first second shared first_trace second_trace].
      rewrite (answer_blind call2 w0 w0 Hblind).
      cbn [turn step first second shared first_trace second_trace].
      destruct (answer clock call1 w0) as [x1 w1] eqn:H1.
      cbn [turn step first second shared first_trace second_trace].
      rewrite (answer_blind call2 w1 w0 Hblind). reflexivity.
Qed.

Lemma turns_commute (j : nat) : forall pl : @Pool Time Stamp Db,
  second_blind pl ->
  interleave clock (repeat true j) (turn clock false pl)
  = turn clock false (interleave clock (repeat true j) pl).
Proof.
  induction j as [| j IH]; intros pl Hblind; [reflexivity |].
  cbn [repeat]. rewrite !interleave_cons. rewrite (turn_commute pl Hblind).
  apply IH. unfold second_blind.
  destruct (turn_true_keeps_second pl) as [Hsecond _]. rewrite Hsecond. exact Hblind.
Qed.

Lemma forallb_app_true {A : Type} (f : A -> bool) (l1 l2 : list A) :
  forallb f (l1 ++ l2) = true -> forallb f l1 = true /\ forallb f l2 = true.
Proof. rewrite forallb_app. intros H. apply andb_true_iff in H. exact H. Qed.

(** As long as the second handler makes blind calls only, the schedule can
    be sorted: the turns of the first handler, then those of the second. *)
Lemma sort_schedule (s : list bool) : forall pl : @Pool Time Stamp Db,
  forallb world_blind (second_trace (interleave clock s pl)) = true ->
  interleave clock s pl
  = interleave clock (repeat false (turns false s))
      (interleave clock (repeat true (turns true s)) pl).
Proof.
  induction s as [| who s IH]; intros pl Hblind; [reflexivity |].
  rewrite interleave_cons in Hblind |- *. rewrite (IH _ Hblind).
  destruct who; unfold turns; cbn [filter Bool.eqb List.length repeat].
  - rewrite (interleave_cons true). reflexivity.
  - rewrite (interleave_cons false). rewrite turns_commute; [reflexivity |].
    unfold second_blind. destruct (second pl) as [| X call k] eqn:Hsecond; [exact I |].
    destruct (second_trace_grows s (turn clock false pl)) as [ext Hext].
    rewrite Hext in Hblind. apply forallb_app_true in Hblind.
    destruct Hblind as [Hblind _]. revert Hblind.
    unfold turn, step. rewrite Hsecond.
    destruct (answer clock call (shared pl)) as [x w1]. cbn [second_trace].
    intros Hblind. apply forallb_app_true in Hblind. destruct Hblind as [_ Hblind].
    cbn in Hblind. rewrite andb_true_r in Hblind. exact Hblind.
Qed.

(** *** A world that stays as it is *)

Lemma quiet_vis {X : Type} (call : Call Time Stamp X) (k : X -> Prog Time Stamp) W :
  quiet clock W (Vis call k) ->
  exists x : X, answer clock call W = (x, W) /\ quiet clock W (k x).
Proof.
  unfold quiet. cbn [run].
  destruct (answer clock call W) as [x w1] eqn:Hanswer.
  destruct (run clock (k x) w1) as [tr w2] eqn:Hrun. cbn [fst forallb still].
  intros Hquiet. apply andb_true_iff in Hquiet. destruct Hquiet as [Hstill Hrest].
  pose proof (answer_still call W Hstill) as Hw. rewrite Hanswer in Hw. cbn in Hw.
  subst w1. exists x. rewrite Hrun. split; [reflexivity | exact Hrest].
Qed.

Lemma quiet_world (p : Prog Time Stamp) : forall W,
  quiet clock W p -> snd (run clock p W) = W.
Proof.
  induction p as [| X call k IH]; intros W Hquiet; [reflexivity |].
  destruct (quiet_vis call k W Hquiet) as (x & Hanswer & Hrest).
  cbn [run]. rewrite Hanswer. specialize (IH x W Hrest).
  destruct (run clock (k x) W) as [tr w2]. exact IH.
Qed.

Lemma frozen_turn (who : bool) W (pl : @Pool Time Stamp Db) tr1 tr2 :
  ends_with clock W pl tr1 tr2 -> ends_with clock W (turn clock who pl) tr1 tr2.
Proof.
  unfold ends_with. destruct pl as [p1 p2 w0 t1 t2].
  cbn [first second shared first_trace second_trace].
  intros (Hw & Hq1 & Hq2 & H1 & H2). subst w0.
  destruct who; unfold turn, step; cbn [first second shared first_trace second_trace].
  - destruct p1 as [| X call k]; [repeat split; assumption |].
    destruct (quiet_vis call k W Hq1) as (x & Hanswer & Hrest). rewrite Hanswer.
    cbn [first second shared first_trace second_trace].
    repeat split; try assumption.
    rewrite <- H1. cbn [run]. rewrite Hanswer.
    destruct (run clock (k x) W) as [tr w2].
    cbn [fst]. rewrite <- app_assoc. reflexivity.
  - destruct p2 as [| X call k]; [repeat split; assumption |].
    destruct (quiet_vis call k W Hq2) as (x & Hanswer & Hrest). rewrite Hanswer.
    cbn [first second shared first_trace second_trace].
    repeat split; try assumption.
    rewrite <- H2. cbn [run]. rewrite Hanswer.
    destruct (run clock (k x) W) as [tr w2].
    cbn [fst]. rewrite <- app_assoc. reflexivity.
Qed.

(** In a world that no call changes, each handler runs as if alone,
    whatever the schedule. *)
Lemma frozen (s : list bool) : forall W (pl : @Pool Time Stamp Db) tr1 tr2,
  ends_with clock W pl tr1 tr2 ->
  finished (interleave clock s pl) = true ->
  first_trace (interleave clock s pl) = tr1
  /\ second_trace (interleave clock s pl) = tr2.
Proof.
  induction s as [| who s IH]; intros W pl tr1 tr2 Hends Hfin.
  - rewrite interleave_nil in Hfin |- *. unfold finished in Hfin.
    destruct Hends as (_ & _ & _ & H1 & H2).
    destruct (first pl); [| discriminate]. destruct (second pl); [| discriminate].
    cbn in H1, H2. rewrite !app_nil_r in *. split; assumption.
  - rewrite interleave_cons in Hfin |- *.
    exact (IH W _ tr1 tr2 (frozen_turn who W pl tr1 tr2 Hends) Hfin).
Qed.

(** The turns of the first handler alone: a prefix of its run. *)
Lemma solo_prefix (j : nat) : forall pl : @Pool Time Stamp Db,
  let P := interleave clock (repeat true j) pl in
  second P = second pl /\ second_trace P = second_trace pl
  /\ first_trace P ++ fst (run clock (first P) (shared P))
     = first_trace pl ++ fst (run clock (first pl) (shared pl))
  /\ snd (run clock (first P) (shared P)) = snd (run clock (first pl) (shared pl)).
Proof.
  induction j as [| j IH]; intros pl; [repeat split |].
  cbv zeta. cbn [repeat]. rewrite interleave_cons.
  destruct (IH (turn clock true pl)) as (H1 & H2 & H3 & H4). cbv zeta in *.
  rewrite H1, H2, H3, H4.
  destruct (turn_true_keeps_second pl) as [Hs1 Hs2]. rewrite Hs1, Hs2.
  repeat split.
  - destruct pl as [p1 p2 w0 t1 t2]. unfold turn, step.
    cbn [first second shared first_trace second_trace].
    destruct p1 as [| X call k]; [reflexivity |]. cbn [run].
    destruct (answer clock call w0) as [x w1].
    cbn [first second shared first_trace second_trace].
    destruct (run clock (k x) w1) as [tr w2]. cbn [fst]. rewrite <- app_assoc.
    reflexivity.
  - destruct pl as [p1 p2 w0 t1 t2]. unfold turn, step.
    cbn [first second shared first_trace second_trace].
    destruct p1 as [| X call k]; [reflexivity |]. cbn [run].
    destruct (answer clock call w0) as [x w1].
    cbn [first second shared first_trace second_trace].
    destruct (run clock (k x) w1) as [tr w2]. reflexivity.
Qed.

(** *** The insert before the lookup *)

(** Either the store took the record and [AddWebsite] answers 200 with it,
    or the store took nothing and [AddWebsite] writes no 200. *)
Lemma AddWebsite_created_or_not c w :
  let tr := fst (run clock (httpDelivery.AddWebsite c) w) in
  (created tr = [] /\ ~ In StatusOK (statuses tr))
  \/ (exists site : Website Stamp,
        created tr = [site]
        /\ responses tr = [mkResponse StatusOK (website_json site)]).
Proof.
  cbv zeta. unfold httpDelivery.AddWebsite, httpDelivery.create.
  walk;
    first [ right; eexists; split; reflexivity
          | left; split; [reflexivity |];
            intros Hin; cbn [In] in Hin;
            repeat (destruct Hin as [Hin | Hin]; [discriminate Hin |]); exact Hin ].
Qed.

(** After its insert [AddWebsite] makes still calls only. *)
Lemma AddWebsite_still_after_insert c w :
  forallb still (after_insert (fst (run clock (httpDelivery.AddWebsite c) w))) = true.
Proof.
  unfold httpDelivery.AddWebsite, httpDelivery.create.
  walk; reflexivity.
Qed.

Lemma after_insert_app (pre post : list (@Event Time Stamp)) :
  inserts pre <> [] ->
  exists between, after_insert (pre ++ post) = between ++ post.
Proof.
  induction pre as [| e pre IH]; intros Hins; [contradiction Hins; reflexivity |].
  cbn [app after_insert]. unfold inserts in Hins. cbn [collect] in Hins.
  destruct (insert_of e) as [i |].
  - exists pre. reflexivity.
  - exact (IH Hins).
Qed.

(** The conflict path is quiet. *)
Lemma AddWebsite_conflict_quiet c w (request : RequestWebsite)
    (hostName userID : string) (n : Z) :
  payload_of c request ->
  ParseURL (URL request) = inl hostName ->
  resolve (Request c) = inl userID ->
  FindWebsite (store w) userID hostName = inl n ->
  (0 < n)%Z ->
  quiet clock w (httpDelivery.AddWebsite c).
Proof.
  unfold resolve, quiet. intros [Hbind Hvalid] Hparse Hres Hfind Hpos.
  destruct (ExtractAccessTokenMetadata (Request c)) as [tokenAuth | e] eqn:Hextract;
    [| discriminate].
  unfold httpDelivery.AddWebsite. answer_calls.
  rewrite Hbind, Hvalid. answer_calls. rewrite Hparse. answer_calls.
  rewrite Hextract. answer_calls. rewrite Hres. answer_calls.
  rewrite Hfind. apply Z.ltb_lt in Hpos. rewrite Hpos. answer_calls.
  reflexivity.
Qed.

(** When the store has taken the record of the first handler at a point of
    the schedule where the second has made blind calls only, the first is
    answered 200 and the second 409. *)
Lemma first_insert_before_lookup (Hstore : faithful uc) (s1 s2 : list bool) c1 c2 w
    (request1 request2 : RequestWebsite) (userID : string) (site : Website Stamp) :
  let halfway :=
    interleave clock s1
      (start (httpDelivery.AddWebsite c1) (httpDelivery.AddWebsite c2) w) in
  let pl := interleave clock s2 halfway in
  finished pl = true ->
  payload_of c1 request1 ->
  payload_of c2 request2 ->
  ParseURL (URL request2) = ParseURL (URL request1) ->
  resolve (Request c1) = inl userID ->
  resolve (Request c2) = inl userID ->
  created (first_trace halfway) = [site] ->
  forallb world_blind (second_trace halfway) = true ->
  responses (first_trace pl) = [mkResponse StatusOK (website_json site)]
  /\ responses (second_trace pl)
     = [mkResponse StatusConflict (gin_H "msg" "this website already exists")]
  /\ created (first_trace pl) = [site]
  /\ created (second_trace pl) = [].
Proof.
  intros halfway pl Hfin Hpayload1 Hpayload2 Hsame Hres1 Hres2 Hcreated Hblind.
  set (S0 := start (httpDelivery.AddWebsite c1) (httpDelivery.AddWebsite c2) w) in *.
  set (P := interleave clock (repeat true (turns true s1)) S0).
  assert (Hhalf : halfway = interleave clock (repeat false (turns false s1)) P).
  { unfold halfway, P. apply sort_schedule. exact Hblind. }
  destruct (false_turns_keep_first (turns false s1) P) as [_ Htrace].
  rewrite Hhalf, Htrace in Hcreated.
  destruct (solo_prefix (turns true s1) S0) as (Hsecond & Hsecond_trace & Hrun & Hworld).
  fold P in Hsecond, Hsecond_trace, Hrun, Hworld.
  unfold S0 in Hsecond, Hsecond_trace, Hrun, Hworld.
  cbn [start first second shared first_trace second_trace app] in
    Hsecond, Hsecond_trace, Hrun, Hworld.
  set (rest := fst (run clock (first P) (shared P))) in *.
  (* the whole run of the first handler, alone *)
  assert (Hins : inserts (first_trace P) <> []).
  { intros Hnone. unfold created in Hcreated. rewrite Hnone in Hcreated.
    discriminate Hcreated. }
  assert (Hquiet1 : quiet clock (shared P) (first P)).
  { unfold quiet. fold rest.
    pose proof (AddWebsite_still_after_insert c1 w) as Hstill.
    rewrite <- Hrun in Hstill.
    destruct (after_insert_app (first_trace P) rest Hins) as [between Hbetween].
    rewrite Hbetween in Hstill. apply forallb_app_true in Hstill. apply Hstill. }
  assert (Hshared : shared P = snd (run clock (httpDelivery.AddWebsite c1) w)).
  { rewrite <- Hworld. symmetry. apply quiet_world. exact Hquiet1. }
  assert (Hfull : responses (fst (run clock (httpDelivery.AddWebsite c1) w))
                  = [mkResponse StatusOK (website_json site)]
                  /\ created rest = []).
  { destruct (AddWebsite_created_or_not c1 w) as [[Hnone _] | (site0 & Hone & Hresp)];
      cbv zeta in *; rewrite <- Hrun in *; unfold created, inserts in *;
      rewrite collect_app, filter_app, map_app in *;
      fold (inserts (first_trace P)) in *; fold (created (first_trace P)) in *;
      rewrite Hcreated in *.
    - discriminate Hnone.
    - cbn [app] in Hone. inversion Hone; subst. split; [exact Hresp | reflexivity]. }
  destruct Hfull as [Hresp1 Hrest].
  destruct (AddWebsite_created_for c1 w request1 userID site Hpayload1 Hres1 Hresp1)
    as [Hhost Howner].
  destruct (AddWebsite_created c1 w site Hresp1) as [Hinsert _].
  destruct (Hstore _ _ _ _ Hinsert) as (n & Hfind & Hpos).
  rewrite Howner, <- Hshared in Hfind. rewrite Hhost in Hsame.
  pose proof (AddWebsite_conflict_quiet c2 (shared P) request2 _ _ n
                Hpayload2 Hsame Hres2 Hfind Hpos) as Hquiet2.
  destruct (AddWebsite_conflict c2 (shared P) request2 _ _ n
              Hpayload2 Hsame Hres2 Hfind Hpos) as (Hresp2 & Hins2 & _).
  (* from there on the world stays as it is *)
  assert (Hends : ends_with clock (shared P) P
                    (fst (run clock (httpDelivery.AddWebsite c1) w))
                    (fst (run clock (httpDelivery.AddWebsite c2) (shared P)))).
  { unfold ends_with. rewrite Hsecond, Hsecond_trace. fold rest.
    repeat split; assumption. }
  assert (Hpl : pl = interleave clock (repeat false (turns false s1) ++ s2) P).
  { unfold pl. rewrite Hhalf, interleave_app. reflexivity. }
  rewrite Hpl in Hfin |- *.
  destruct (frozen _ _ _ _ _ Hends Hfin) as [Hfirst Hsnd].
  rewrite Hfirst, Hsnd. repeat split.
  - exact Hresp1.
  - exact Hresp2.
  - rewrite <- Hrun. unfold created, inserts. rewrite collect_app, filter_app, map_app.
    fold (inserts (first_trace P)). fold (created (first_trace P)).
    fold (inserts rest). fold (created rest). rewrite Hcreated, Hrest. reflexivity.
  - unfold created. rewrite Hins2. reflexivity.
Qed.

(** The two handlers can be exchanged. *)
Lemma swap_turn (who : bool) (pl : @Pool Time Stamp Db) :
  swap (turn clock who pl) = turn clock (negb who) (swap pl).
Proof.
  destruct pl as [p1 p2 w0 t1 t2].
  destruct who; unfold turn, swap; cbn [negb first second shared first_trace second_trace].
  - destruct (step clock p1 w0) as [[[e p] w1] |]; reflexivity.
  - destruct (step clock p2 w0) as [[[e p] w1] |]; reflexivity.
Qed.

Lemma swap_interleave (s : list bool) : forall pl : @Pool Time Stamp Db,
  swap (interleave clock s pl) = interleave clock (map negb s) (swap pl).
Proof.
  induction s as [| who s IH]; intros pl; [reflexivity |].
  cbn [map]. rewrite !interleave_cons, IH, swap_turn. reflexivity.
Qed.

(** C1, as the code has it.  Take two registrations of one host by one
    owner over a faithful store, in any schedule, overlapping or not.  When
    at some point of the schedule the store has taken the record of one of
    them while the other has so far made blind calls only (it has not yet
    looked the host up), that one is answered 200, the other 409, and the
    store took that one record.  The lookup and the insert are two calls of
    the store: the guarantee is for the schedules in which one insert comes
    before the other lookup. *)
Theorem AddWebsite_insert_before_lookup (Hstore : faithful uc) (early : bool)
    (s1 s2 : list bool) c1 c2 w (request1 request2 : RequestWebsite)
    (userID : string) (site : Website Stamp) :
  let halfway :=
    interleave clock s1
      (start (httpDelivery.AddWebsite c1) (httpDelivery.AddWebsite c2) w) in
  let pl := interleave clock s2 halfway in
  finished pl = true ->
  payload_of c1 request1 ->
  payload_of c2 request2 ->
  ParseURL (URL request2) = ParseURL (URL request1) ->
  resolve (Request c1) = inl userID ->
  resolve (Request c2) = inl userID ->
  created (trace_of early halfway) = [site] ->
  forallb world_blind (trace_of (negb early) halfway) = true ->
  one_created_one_conflict pl
  /\ created (first_trace pl ++ second_trace pl) = [site].
Proof.
  intros halfway pl Hfin Hpayload1 Hpayload2 Hsame Hres1 Hres2 Hcreated Hblind.
  assert (Hsplit : forall tr1 tr2 : list (@Event Time Stamp),
            created (tr1 ++ tr2) = created tr1 ++ created tr2).
  { intros tr1 tr2. unfold created, inserts.
    rewrite collect_app, filter_app, map_app. reflexivity. }
  destruct early; cbn [trace_of negb] in Hcreated, Hblind.
  - destruct (first_insert_before_lookup Hstore s1 s2 c1 c2 w request1 request2
                userID site Hfin Hpayload1 Hpayload2 Hsame Hres1 Hres2 Hcreated Hblind)
      as (Hresp1 & Hresp2 & Hc1 & Hc2).
    fold halfway in Hresp1, Hresp2, Hc1, Hc2. fold pl in Hresp1, Hresp2, Hc1, Hc2.
    assert (Hall : created (first_trace pl ++ second_trace pl) = [site]).
    { rewrite Hsplit, Hc1, Hc2. reflexivity. }
    split; [| exact Hall]. split.
    + left. unfold statuses. rewrite Hresp1, Hresp2. split; reflexivity.
    + rewrite Hall. reflexivity.
  - assert (Hswap : swap pl
                    = interleave clock (map negb s2)
                        (interleave clock (map negb s1)
                           (start (httpDelivery.AddWebsite c2)
                              (httpDelivery.AddWebsite c1) w))).
    { unfold pl, halfway. rewrite !swap_interleave. reflexivity. }
    assert (Hhalf : swap halfway
                    = interleave clock (map negb s1)
                        (start (httpDelivery.AddWebsite c2)
                           (httpDelivery.AddWebsite c1) w)).
    { unfold halfway. rewrite swap_interleave. reflexivity. }
    assert (Hfin' : finished (swap pl) = true).
    { unfold finished, swap. cbn [first second]. unfold finished in Hfin.
      destruct (first pl); [| discriminate]. destruct (second pl); [| discriminate].
      reflexivity. }
    assert (Hcreated' : created (first_trace (swap halfway)) = [site]) by exact Hcreated.
    assert (Hblind' : forallb world_blind (second_trace (swap halfway)) = true)
      by exact Hblind.
    rewrite Hswap in Hfin'. rewrite Hhalf in Hcreated', Hblind'.
    destruct (first_insert_before_lookup Hstore (map negb s1) (map negb s2) c2 c1 w
                request2 request1 userID site Hfin' Hpayload2 Hpayload1
                (eq_sym Hsame) Hres2 Hres1 Hcreated' Hblind')
      as (Hresp1 & Hresp2 & Hc1 & Hc2).
    rewrite <- Hswap in Hresp1, Hresp2, Hc1, Hc2.
    cbn [swap first_trace second_trace] in Hresp1, Hresp2, Hc1, Hc2.
    assert (Hall : created (first_trace pl ++ second_trace pl) = [site]).
    { rewrite Hsplit, Hc1, Hc2. reflexivity. }
    split; [| exact Hall]. split.
    + right. unfold statuses. rewrite Hresp1, Hresp2. split; reflexivity.
    + rewrite Hall. reflexivity.
Qed.

End Claims.

(** ** The reference stores *)

Lemma owned_host_refl {Stamp : Type} (userID : string) (site : Website Stamp) :
  owned_host userID (HostName site) (userID, site) = true.
Proof. unfold owned_host. cbn [fst snd]. rewrite !String.eqb_refl. reflexivity. Qed.

Lemma sites_Find_after_append {Stamp : Type} (db : Sites Stamp) (userID : string)
    (site : Website Stamp) :
  exists n : Z,
    sites_Find (db ++ [(userID, site)]) userID (HostName site) = inl n /\ (0 < n)%Z.
Proof.
  unfold sites_Find. eexists. split; [reflexivity |].
  rewrite filter_app, length_app. cbn [filter]. rewrite owned_host_refl.
  cbn [List.length]. lia.
Qed.

Lemma plain_store_faithful (Stamp : Type) : faithful (plain_store Stamp).
Proof.
  intros db db' userID site Hinsert. cbn in Hinsert. unfold sites_Insert in Hinsert.
  inversion Hinsert; subst. apply sites_Find_after_append.
Qed.

Lemma unique_store_faithful (Stamp : Type) : faithful (unique_store Stamp).
Proof.
  intros db db' userID site Hinsert. cbn in Hinsert. unfold sites_InsertUnique in Hinsert.
  destruct (existsb (owned_host userID (HostName site)) db); [discriminate |].
  inversion Hinsert; subst. apply sites_Find_after_append.
Qed.

(** A read of the reference store for an owner who has no record under the
    identifier is an error, whether another owner has one or nobody has. *)
Lemma sites_Get_scoped {Stamp : Type} (db : Sites Stamp) (userID websiteID : string) :
  (forall e, In e db -> fst e = userID -> ID (snd e) <> websiteID) ->
  sites_Get db userID websiteID = inr "no documents in result"%string.
Proof.
  intros Hnone. unfold sites_Get.
  destruct (find (owned_id userID websiteID) db) as [e |] eqn:Hfind; [| reflexivity].
  apply find_some in Hfind. destruct Hfind as [Hin Hown].
  unfold owned_id in Hown. apply andb_true_iff in Hown. destruct Hown as [Hu Hi].
  apply String.eqb_eq in Hu, Hi. exfalso. exact (Hnone e Hin Hu Hi).
Qed.

(** ** Canonicalization *)

Local Open Scope string_scope.

Lemma all_chars_impl (p q : ascii -> bool) (s : string) :
  (forall c, p c = true -> q c = true) ->
  all_chars p s = true -> all_chars q s = true.
Proof.
  intros Himpl. induction s as [| c s IH]; cbn [all_chars]; [reflexivity |].
  intros Hall. apply andb_true_iff in Hall. destruct Hall as [Hc Hs].
  rewrite (Himpl c Hc), (IH Hs). reflexivity.
Qed.

Lemma host_char_parts (c : ascii) :
  host_char c = true ->
  ends_host c = false /\ Ascii.eqb c "@" = false
  /\ Ascii.eqb c ":" = false /\ Ascii.eqb c "[" = false.
Proof.
  unfold host_char. intros Hc. apply negb_true_iff in Hc.
  apply orb_false_iff in Hc. destruct Hc as [Hc Hbracket].
  apply orb_false_iff in Hc. destruct Hc as [Hc Hcolon].
  apply orb_false_iff in Hc. destruct Hc as [Hends Hat]. auto.
Qed.

Lemma cut_scheme_colon (scheme rest : string) :
  all_chars (fun c => negb (Ascii.eqb c ":")) scheme = true ->
  cut_scheme (scheme ++ String ":" rest) = Some (scheme, rest).
Proof.
  induction scheme as [| c scheme IH]; intros Hok; cbn in Hok |- *.
  - reflexivity.
  - apply andb_true_iff in Hok. destruct Hok as [Hc Hrest].
    apply negb_true_iff in Hc. rewrite Hc, (IH Hrest). reflexivity.
Qed.

(** The authority stops at the tail. *)
Lemma authority_stops (auth tail : string) :
  all_chars (fun c => negb (ends_host c)) auth = true ->
  tail_ok tail = true ->
  authority (auth ++ tail) = auth.
Proof.
  induction auth as [| c auth IH]; intros Hok Htail; cbn in Hok |- *.
  - destruct tail as [| t tail]; cbn in Htail |- *; [reflexivity |].
    rewrite Htail. reflexivity.
  - apply andb_true_iff in Hok. destruct Hok as [Hc Hrest].
    apply negb_true_iff in Hc. rewrite Hc, (IH Hrest Htail). reflexivity.
Qed.

Lemma after_last_at_none (s : string) :
  all_chars (fun c => negb (Ascii.eqb c "@")) s = true -> after_last_at s = None.
Proof.
  induction s as [| c s IH]; intros Hok; cbn in Hok |- *; [reflexivity |].
  apply andb_true_iff in Hok. destruct Hok as [Hc Hs].
  apply negb_true_iff in Hc. rewrite (IH Hs), Hc. reflexivity.
Qed.

(** What follows the last [@] is what follows the user information. *)
Lemma after_last_at_userinfo (userinfo rest : string) :
  all_chars (fun c => negb (Ascii.eqb c "@")) rest = true ->
  after_last_at (userinfo ++ String "@" rest) = Some rest.
Proof.
  intros Hrest. induction userinfo as [| c userinfo IH]; cbn [append after_last_at].
  - rewrite (after_last_at_none rest Hrest). reflexivity.
  - rewrite IH. reflexivity.
Qed.

Lemma until_colon_stops (host rest : string) :
  all_chars (fun c => negb (Ascii.eqb c ":")) host = true ->
  until_colon (host ++ String ":" rest) = host /\ until_colon host = host.
Proof.
  induction host as [| c host IH]; intros Hok; cbn in Hok |- *; [split; reflexivity |].
  apply andb_true_iff in Hok. destruct Hok as [Hc Hs].
  apply negb_true_iff in Hc. rewrite Hc. destruct (IH Hs) as [IH1 IH2].
  rewrite IH1, IH2. split; reflexivity.
Qed.

(** The host of an authority that is a host, and of one with a port. *)
Lemma drop_port_host (host rest : string) :
  all_chars host_char host = true ->
  drop_port host = host
  /\ (is_empty host = false -> drop_port (host ++ String ":" rest) = host).
Proof.
  intros Hok.
  assert (Hcolon : all_chars (fun c => negb (Ascii.eqb c ":")) host = true).
  { apply (all_chars_impl host_char); [| exact Hok].
    intros c Hc. destruct (host_char_parts c Hc) as (_ & _ & H & _).
    rewrite H. reflexivity. }
  destruct (until_colon_stops host rest Hcolon) as [Hwith Hplain].
  destruct host as [| c host]; [split; [reflexivity | discriminate] |].
  cbn [all_chars] in Hok. apply andb_true_iff in Hok. destruct Hok as [Hc _].
  destruct (host_char_parts c Hc) as (_ & _ & _ & Hbracket).
  unfold drop_port. cbn [append]. rewrite Hbracket. split; [exact Hplain |].
  intros _. exact Hwith.
Qed.

(** The canonical host of [scheme://host] and a tail is the host in
    canonical form. *)
Lemma canonicalize_url_of (scheme host tail : string) :
  scheme_ok scheme = true ->
  host_ok host = true ->
  tail_ok tail = true ->
  canonicalize (url_of scheme host tail) = inl (canonical_host host).
Proof.
  unfold scheme_ok, host_ok. intros Hscheme Hhost Htail.
  apply andb_true_iff in Hscheme, Hhost.
  destruct Hscheme as [Hs1 Hs2], Hhost as [Hh1 Hh2].
  apply negb_true_iff in Hs1, Hh2.
  unfold canonicalize, url_of. cbn [append].
  rewrite (cut_scheme_colon scheme _ Hs2). cbn [after_slashes Ascii.eqb Bool.eqb andb].
  rewrite authority_stops; [| | exact Htail].
  - unfold host_component, drop_userinfo. rewrite after_last_at_none.
    + destruct (drop_port_host host EmptyString Hh1) as [Hplain _].
      rewrite Hplain, Hs1, Hh2. reflexivity.
    + apply (all_chars_impl host_char); [| exact Hh1].
      intros c Hc. destruct (host_char_parts c Hc) as (_ & H & _).
      rewrite H. reflexivity.
  - apply (all_chars_impl host_char); [| exact Hh1].
    intros c Hc. destruct (host_char_parts c Hc) as (H & _).
    rewrite H. reflexivity.
Qed.

Lemma string_app_assoc (s1 s2 s3 : string) :
  (s1 ++ s2) ++ s3 = s1 ++ (s2 ++ s3).
Proof.
  induction s1 as [| c s1 IH]; cbn [append]; [reflexivity |].
  rewrite IH. reflexivity.
Qed.

Lemma all_chars_app (p : ascii -> bool) (s1 s2 : string) :
  all_chars p (s1 ++ s2) = all_chars p s1 && all_chars p s2.
Proof.
  induction s1 as [| c s1 IH]; cbn [append all_chars]; [reflexivity |].
  rewrite IH, andb_assoc. reflexivity.
Qed.

(** Only the host is kept: the user information and the port of the
    authority do not reach the canonical host. *)
Lemma canonicalize_url_with (scheme userinfo host port tail : string) :
  scheme_ok scheme = true ->
  userinfo_ok userinfo = true ->
  host_ok host = true ->
  port_ok port = true ->
  tail_ok tail = true ->
  canonicalize (url_with scheme userinfo host port tail) = inl (canonical_host host).
Proof.
  unfold scheme_ok, host_ok, userinfo_ok, port_ok.
  intros Hscheme Huser Hhost Hport Htail.
  apply andb_true_iff in Hscheme, Hhost.
  destruct Hscheme as [Hs1 Hs2], Hhost as [Hh1 Hh2].
  apply negb_true_iff in Hs1, Hh2.
  assert (Hne : is_empty host = false).
  { destruct host; [cbn in Hh2; discriminate | reflexivity]. }
  assert (Hhost_ends : all_chars (fun c => negb (ends_host c)) host = true).
  { apply (all_chars_impl host_char); [| exact Hh1].
    intros c Hc. destruct (host_char_parts c Hc) as (H & _). rewrite H. reflexivity. }
  assert (Hhost_at : all_chars (fun c => negb (Ascii.eqb c "@")) host = true).
  { apply (all_chars_impl host_char); [| exact Hh1].
    intros c Hc. destruct (host_char_parts c Hc) as (_ & H & _). rewrite H. reflexivity. }
  assert (Hport_ends : all_chars (fun c => negb (ends_host c)) port = true).
  { apply (all_chars_impl (fun c => negb (ends_host c || Ascii.eqb c "@")));
      [| exact Hport].
    intros c Hc. apply negb_true_iff, orb_false_iff in Hc. destruct Hc as [H _].
    rewrite H. reflexivity. }
  assert (Hport_at : all_chars (fun c => negb (Ascii.eqb c "@")) port = true).
  { apply (all_chars_impl (fun c => negb (ends_host c || Ascii.eqb c "@")));
      [| exact Hport].
    intros c Hc. apply negb_true_iff, orb_false_iff in Hc. destruct Hc as [_ H].
    rewrite H. reflexivity. }
  unfold canonicalize, url_with. cbn [append].
  rewrite (cut_scheme_colon scheme _ Hs2). cbn [after_slashes Ascii.eqb Bool.eqb andb].
  replace (userinfo ++ String "@" (host ++ String ":" (port ++ tail)))
    with ((userinfo ++ String "@" (host ++ String ":" port)) ++ tail).
  2: { rewrite string_app_assoc. cbn [append]. rewrite string_app_assoc.
       cbn [append]. reflexivity. }
  rewrite authority_stops; [| | exact Htail].
  - unfold host_component, drop_userinfo. rewrite after_last_at_userinfo.
    + destruct (drop_port_host host port Hh1) as [_ Hwith].
      rewrite (Hwith Hne), Hs1, Hh2. reflexivity.
    + rewrite all_chars_app, Hhost_at. cbn [all_chars Ascii.eqb Bool.eqb negb andb].
      exact Hport_at.
  - rewrite all_chars_app, Huser. cbn [all_chars andb].
    rewrite all_chars_app, Hhost_ends. cbn [all_chars andb]. rewrite Hport_ends.
    reflexivity.
Qed.

(** The answer of the canonicalization is a host that is not empty, or
    [InvalidURL]. *)
Lemma canonicalize_total (raw_url : string) :
  canonicalize raw_url = inr InvalidURL
  \/ exists host : string, canonicalize raw_url = inl host /\ is_empty host = false.
Proof.
  unfold canonicalize.
  destruct (cut_scheme raw_url) as [[scheme rest] |]; [| left; reflexivity].
  destruct (after_slashes rest) as [r |]; [| left; reflexivity].
  destruct (is_empty scheme); cbn [orb]; [left; reflexivity |].
  destruct (is_empty (canonical_host (host_component (authority r)))) eqn:Hempty;
    [left; reflexivity |].
  right. eexists. split; [reflexivity | exact Hempty].
Qed.

(** The canonicalization keeps the host and nothing else of the authority,
    folds its case and strips the separators at its end. *)
Example canonicalize_examples :
  canonicalize "https://user:pw@example.com/" = inl "example.com"
  /\ canonicalize "https://example.com:443/" = inl "example.com"
  /\ canonicalize "https://Example.COM./a/b?x=1#top" = inl "example.com"
  /\ canonicalize "http://[::1]:8080/x" = inl "[::1]"
  /\ canonicalize "https:///path" = inr InvalidURL
  /\ canonicalize "example.com/path" = inr InvalidURL.
Proof. repeat split. Qed.

(** C4. The canonicalization is a function defined on every URL (it answers
    with a host that is not empty or with [InvalidURL]); two URLs that differ
    in the scheme, in the path and the query, and in the letter case of the
    host have the same canonical host, the host case-folded and without
    trailing separators; and it is the host alone: user information and a
    port in the authority do not change it. *)
Theorem canonicalize_same_host (scheme1 scheme2 host1 host2 tail1 tail2 : string) :
  scheme_ok scheme1 = true -> scheme_ok scheme2 = true ->
  host_ok host1 = true -> host_ok host2 = true ->
  tail_ok tail1 = true -> tail_ok tail2 = true ->
  ToLower host1 = ToLower host2 ->
  canonicalize (url_of scheme1 host1 tail1) = inl (canonical_host host1)
  /\ canonicalize (url_of scheme2 host2 tail2) = canonicalize (url_of scheme1 host1 tail1)
  /\ (forall userinfo port : string,
        userinfo_ok userinfo = true -> port_ok port = true ->
        canonicalize (url_with scheme1 userinfo host1 port tail1)
        = inl (canonical_host host1))
  /\ (forall raw_url : string,
        canonicalize raw_url = inr InvalidURL
        \/ exists host : string,
             canonicalize raw_url = inl host /\ is_empty host = false).
Proof.
  intros Hs1 Hs2 Hh1 Hh2 Ht1 Ht2 Hfold.
  rewrite (canonicalize_url_of scheme1 host1 tail1 Hs1 Hh1 Ht1).
  rewrite (canonicalize_url_of scheme2 host2 tail2 Hs2 Hh2 Ht2).
  split; [reflexivity |]. split; [unfold canonical_host; rewrite Hfold; reflexivity |].
  split; [| apply canonicalize_total].
  intros userinfo port Huser Hport.
  exact (canonicalize_url_with scheme1 userinfo host1 port tail1 Hs1 Huser Hh1 Hport Ht1).
Qed.

(** ** The claims on the example requests *)

Local Open Scope list_scope.

Lemma AddWebsite_rejects_invalid_payload_witness :
  let request := {| Name := "M"; URL := "https://example.com" |} in
  let r := example_run (plain_store string) text_ParseTime
             (httpDelivery.AddWebsite short_name) empty_world in
  lines_Bind (Request short_name) = inl request
  /\ (RuneCountInString (Name request) < 2)%nat
  /\ statuses (fst r) = [StatusBadRequest]
  /\ existsb is_canonicalization (fst r) = false
  /\ existsb is_authentication (fst r) = false
  /\ existsb is_store_access (fst r) = false
  /\ snd r = empty_world.
Proof.
  assert (Hbind : lines_Bind (Request short_name)
                  = inl {| Name := "M"; URL := "https://example.com" |})
    by reflexivity.
  assert (Hshort : (RuneCountInString "M" < 2)%nat) by (cbn; lia).
  split; [exact Hbind |]. split; [exact Hshort |].
  exact (AddWebsite_rejects_invalid_payload
           (pkg := reference_packages text_ParseTime) (digest := prefix_digest)
           (auth := example_auth) (uc := plain_store string)
           seconds_clock short_name empty_world
           {| Name := "M"; URL := "https://example.com" |}
           Hbind (or_introl Hshort)).
Defined.



Lemma AddWebsite_time_failure_default_answer_witness :
  let r := example_run (plain_store string) failing_ParseTime
             (httpDelivery.AddWebsite my_site) empty_world in
  parse_time_failures (fst r) = ["cannot parse 2006-01-02, 15:04:05'"%string]
  /\ responses (fst r) = []
  /\ inserts (fst r) = []
  /\ logged (fst r) = parse_time_failures (fst r)
  /\ store (snd r) = store empty_world
  /\ client_view (fst r) = Some (StatusOK, []).
Proof.
  split; [reflexivity |].
  apply (AddWebsite_time_failure_default_answer
           (pkg := reference_packages failing_ParseTime) (digest := prefix_digest)
           (auth := example_auth) (uc := plain_store string)
           seconds_clock my_site empty_world).
  discriminate.
Defined.

(** C10, the failing case.  The creation time does not parse: the handler
    writes nothing and creates nothing, and the client observes a result all
    the same, the answer 200 with an empty body. *)
Lemma AddWebsite_time_failure_observed :
  let tr := fst (example_run (plain_store string) failing_ParseTime
                   (httpDelivery.AddWebsite my_site) empty_world) in
  parse_time_failures tr = ["cannot parse 2006-01-02, 15:04:05'"%string]
  /\ responses tr = []
  /\ created tr = []
  /\ client_view tr = Some (StatusOK, [])
  /\ ~ no_observable_result tr.
Proof.
  cbv zeta. split; [reflexivity |]. split; [reflexivity |]. split; [reflexivity |].
  split; [reflexivity |]. intros Hnone. discriminate Hnone.
Qed.

Lemma AddWebsite_fresh_record_witness :
  let site := example_site "u1" "My Site" "https://Example.com/path?x=1" in
  let r := example_run (plain_store string) text_ParseTime
             (httpDelivery.AddWebsite my_site) empty_world in
  In (site, true) (inserts (fst r))
  /\ Tracked site = false
  /\ CreatedAt site = UpdatedAt site
  /\ text_ParseTime (ticks_Format (seconds_clock 0) httpDelivery.layout)
     = inl (CreatedAt site)
  /\ clock_reads (fst r) = 1%nat.
Proof.
  assert (Hin : In (example_site "u1" "My Site" "https://Example.com/path?x=1", true)
                   (inserts (fst (example_run (plain_store string) text_ParseTime
                                    (httpDelivery.AddWebsite my_site) empty_world))))
    by (left; reflexivity).
  split; [exact Hin |].
  exact (AddWebsite_fresh_record
           (pkg := reference_packages text_ParseTime) (digest := prefix_digest)
           (auth := example_auth) (uc := plain_store string)
           seconds_clock my_site empty_world _ true Hin).
Defined.

Lemma AddWebsite_second_is_conflict_witness :
  let site := example_site "u1" "My Site" "https://Example.com/path?x=1" in
  let r1 := example_run (plain_store string) text_ParseTime
              (httpDelivery.AddWebsite my_site) empty_world in
  let r2 := example_run (plain_store string) text_ParseTime
              (httpDelivery.AddWebsite dup) (snd r1) in
  canonicalize "http://EXAMPLE.COM/" = canonicalize "https://Example.com/path?x=1"
  /\ example_resolve (Request my_site) = inl "u1"%string
  /\ example_resolve (Request dup) = inl "u1"%string
  /\ responses (fst r1) = [mkResponse StatusOK (website_json site)]
  /\ responses (fst r2) =
       [mkResponse StatusConflict (gin_H "msg" "this website already exists")]
  /\ inserts (fst r2) = []
  /\ snd r2 = snd r1.
Proof.
  cbv zeta. unfold example_run.
  assert (Hpayload1 : example_payload_of my_site
                        {| Name := "My Site"; URL := "https://Example.com/path?x=1" |})
    by (split; reflexivity).
  assert (Hpayload2 : example_payload_of dup {| Name := "dup"; URL := "http://EXAMPLE.COM/" |})
    by (split; reflexivity).
  assert (Hsame : canonicalize "http://EXAMPLE.COM/"
                  = canonicalize "https://Example.com/path?x=1") by reflexivity.
  assert (Hres1 : example_resolve (Request my_site) = inl "u1"%string) by reflexivity.
  assert (Hres2 : example_resolve (Request dup) = inl "u1"%string) by reflexivity.
  pose proof (AddWebsite_second_is_conflict
                (pkg := reference_packages text_ParseTime) (digest := prefix_digest)
                (auth := example_auth) (uc := plain_store string)
                seconds_clock (plain_store_faithful string) my_site dup empty_world
                {| Name := "My Site"; URL := "https://Example.com/path?x=1" |}
                {| Name := "dup"; URL := "http://EXAMPLE.COM/" |} "u1"%string
                (example_site "u1" "My Site" "https://Example.com/path?x=1")) as Hthm.
  cbv zeta in Hthm.
  assert (Hfirst :
    responses (fst (run (pkg := reference_packages text_ParseTime)
                      (digest := prefix_digest) (auth := example_auth)
                      (uc := plain_store string) seconds_clock
                      (httpDelivery.AddWebsite my_site) empty_world))
    = [mkResponse StatusOK
         (website_json (example_site "u1" "My Site" "https://Example.com/path?x=1"))])
    by (vm_compute; reflexivity).
  split; [exact Hsame |]. split; [exact Hres1 |]. split; [exact Hres2 |].
  split; [exact Hfirst |].
  exact (Hthm Hpayload1 Hpayload2 Hsame Hres1 Hres2 Hfirst).
Defined.

Lemma AddWebsite_insert_before_lookup_witness :
  let site := example_site "u1" "My Site" "https://Example.com/path?x=1" in
  let halfway := example_interleave (plain_store string) overlap_until_insert
                   (start (httpDelivery.AddWebsite my_site) (httpDelivery.AddWebsite dup)
                      empty_world) in
  let pl := example_interleave (plain_store string) overlap_rest halfway in
  finished halfway = false
  /\ List.length (second_trace halfway) = 4%nat
  /\ finished pl = true
  /\ created (first_trace halfway) = [site]
  /\ forallb world_blind (second_trace halfway) = true
  /\ one_created_one_conflict pl
  /\ created (first_trace pl ++ second_trace pl) = [site].
Proof.
  cbv zeta. unfold example_interleave.
  assert (Hpayload1 : example_payload_of my_site
                        {| Name := "My Site"; URL := "https://Example.com/path?x=1" |})
    by (split; reflexivity).
  assert (Hpayload2 : example_payload_of dup {| Name := "dup"; URL := "http://EXAMPLE.COM/" |})
    by (split; reflexivity).
  assert (Hsame : canonicalize "http://EXAMPLE.COM/"
                  = canonicalize "https://Example.com/path?x=1") by reflexivity.
  assert (Hres1 : example_resolve (Request my_site) = inl "u1"%string) by reflexivity.
  assert (Hres2 : example_resolve (Request dup) = inl "u1"%string) by reflexivity.
  pose proof (AddWebsite_insert_before_lookup
                (pkg := reference_packages text_ParseTime) (digest := prefix_digest)
                (auth := example_auth) (uc := plain_store string)
                seconds_clock (plain_store_faithful string) true
                overlap_until_insert overlap_rest my_site dup empty_world
                {| Name := "My Site"; URL := "https://Example.com/path?x=1" |}
                {| Name := "dup"; URL := "http://EXAMPLE.COM/" |} "u1"%string
                (example_site "u1" "My Site" "https://Example.com/path?x=1")) as Hthm.
  cbv zeta in Hthm. cbn [trace_of negb] in Hthm.
  match type of Hthm with
  | ?A -> _ -> _ -> _ -> _ -> _ -> ?G -> ?H -> _ =>
    assert (Hfin : A) by (vm_compute; reflexivity);
    assert (Hcreated : G) by (vm_compute; reflexivity);
    assert (Hblind : H) by (vm_compute; reflexivity)
  end.
  split; [vm_compute; reflexivity |]. split; [vm_compute; reflexivity |].
  split; [exact Hfin |]. split; [exact Hcreated |]. split; [exact Hblind |].
  exact (Hthm Hfin Hpayload1 Hpayload2 Hsame Hres1 Hres2 Hcreated Hblind).
Defined.

(** C1, the race.  Both handlers look the host up before either inserts:
    with a store that takes every insert, both are answered 200 and the owner
    has the host twice. *)
Lemma AddWebsite_race_two_created :
  let pl := example_interleave (plain_store string) race
              (start (httpDelivery.AddWebsite my_site) (httpDelivery.AddWebsite dup)
                 empty_world) in
  finished pl = true
  /\ statuses (first_trace pl) = [StatusOK]
  /\ statuses (second_trace pl) = [StatusOK]
  /\ map (fun e => (fst e, HostName (snd e))) (store (shared pl))
     = [("u1", "example.com"); ("u1", "example.com")]%string
  /\ ~ one_created_one_conflict pl.
Proof.
  cbv zeta. split; [reflexivity |]. split; [reflexivity |].
  split; [reflexivity |]. split; [reflexivity |].
  intros [[[_ Hsecond] | [Hfirst _]] _].
  - vm_compute in Hsecond. discriminate Hsecond.
  - vm_compute in Hfirst. discriminate Hfirst.
Qed.

(** The same race over a store with a unique index: the store rejects the
    second writer, and the handler answers it 500, not 409. *)
Lemma AddWebsite_race_storage_error :
  let pl := example_interleave (unique_store string) race
              (start (httpDelivery.AddWebsite my_site) (httpDelivery.AddWebsite dup)
                 empty_world) in
  finished pl = true
  /\ statuses (first_trace pl) = [StatusOK]
  /\ responses (second_trace pl)
     = [mkResponse StatusInternalServerError
          (gin_H "msg" "error occured while insert website")]
  /\ ~ one_created_one_conflict pl.
Proof.
  cbv zeta. split; [reflexivity |]. split; [reflexivity |]. split; [reflexivity |].
  intros [[[_ Hsecond] | [Hfirst _]] _].
  - vm_compute in Hsecond. discriminate Hsecond.
  - vm_compute in Hfirst. discriminate Hfirst.
Qed.

Lemma AddWebsite_invalid_url_is_internal_error_witness :
  let request := {| Name := "My Site"; URL := "no host here" |} in
  let r := example_run (plain_store string) text_ParseTime
             (httpDelivery.AddWebsite no_host) empty_world in
  example_payload_of no_host request
  /\ canonicalize (URL request) = inr InvalidURL
  /\ responses (fst r)
     = [mkResponse StatusInternalServerError
          (gin_H "msg" "error occured while parse url the website")]
  /\ existsb is_authentication (fst r) = false
  /\ existsb is_store_access (fst r) = false
  /\ snd r = empty_world.
Proof.
  assert (Hpayload : example_payload_of no_host
                       {| Name := "My Site"; URL := "no host here" |})
    by (split; reflexivity).
  assert (Hparse : canonicalize "no host here" = inr InvalidURL) by reflexivity.
  split; [exact Hpayload |]. split; [exact Hparse |].
  exact (AddWebsite_invalid_url_is_internal_error
           (pkg := reference_packages text_ParseTime) (digest := prefix_digest)
           (auth := example_auth) (uc := plain_store string)
           seconds_clock no_host empty_world
           {| Name := "My Site"; URL := "no host here" |} InvalidURL Hpayload Hparse).
Defined.

(** C6, the failing case.  A URL without a host, in a request that is
    otherwise valid, is answered 500, the status of the storage failures, not
    400. *)
Lemma AddWebsite_invalid_url_not_bad_input :
  let tr := fst (example_run (plain_store string) text_ParseTime
                   (httpDelivery.AddWebsite no_host) empty_world) in
  canonicalize "no host here" = inr InvalidURL
  /\ statuses tr = [StatusInternalServerError]
  /\ ~ bad_input tr.
Proof.
  cbv zeta. split; [reflexivity |]. split; [reflexivity |].
  intros Hbad. vm_compute in Hbad. discriminate Hbad.
Qed.

Lemma GetWebsite_store_error_is_internal_error_witness :
  let r := example_run (plain_store string) text_ParseTime
             (httpDelivery.GetWebsite read_by_u1) world_of_u2 in
  example_resolve (Request read_by_u1) = inl "u1"%string
  /\ sites_Get (store world_of_u2) "u1" (Param read_by_u1 "website_id")
     = inr "no documents in result"%string
  /\ responses (fst r)
     = [mkResponse StatusInternalServerError
          (gin_H "error" "error occured while get the website by id")]
  /\ StatusInternalServerError <> StatusForbidden
  /\ StatusInternalServerError <> StatusNotFound
  /\ snd r = world_of_u2.
Proof.
  assert (Hres : example_resolve (Request read_by_u1) = inl "u1"%string)
    by reflexivity.
  assert (Hget : sites_Get (store world_of_u2) "u1" (Param read_by_u1 "website_id")
                 = inr "no documents in result"%string) by reflexivity.
  split; [exact Hres |]. split; [exact Hget |].
  exact (GetWebsite_store_error_is_internal_error
           (pkg := reference_packages text_ParseTime) (digest := prefix_digest)
           (auth := example_auth) (uc := plain_store string)
           seconds_clock read_by_u1 world_of_u2 "u1"%string
           "no documents in result"%string Hres Hget).
Defined.

(** C7, the failing case.  The identifier is that of a record of the second
    owner; the read by the first owner is answered 500, not 404. *)
Lemma GetWebsite_unowned_not_not_found :
  let tr := fst (example_run (plain_store string) text_ParseTime
                   (httpDelivery.GetWebsite read_by_u1) world_of_u2) in
  sites_Get (store world_of_u2) "u2" "site:example.com"
  = inl (example_site "u2" "Their Site" "https://example.com")
  /\ example_resolve (Request read_by_u1) = inl "u1"%string
  /\ statuses tr = [StatusInternalServerError]
  /\ ~ not_found tr.
Proof.
  cbv zeta. split; [reflexivity |]. split; [reflexivity |]. split; [reflexivity |].
  intros Hnot. vm_compute in Hnot. discriminate Hnot.
Qed.

Lemma canonicalize_same_host_witness :
  scheme_ok "https" = true /\ scheme_ok "http" = true
  /\ host_ok "Example.com" = true /\ host_ok "EXAMPLE.COM" = true
  /\ tail_ok "/path?x=1" = true /\ tail_ok "/" = true
  /\ ToLower "Example.com" = ToLower "EXAMPLE.COM"
  /\ canonicalize "https://Example.com/path?x=1" = inl "example.com"%string
  /\ canonicalize "http://EXAMPLE.COM/" = canonicalize "https://Example.com/path?x=1"
  /\ canonicalize "https://user:pw@Example.com:8443/path?x=1" = inl "example.com"%string.
Proof.
  destruct (canonicalize_same_host "https" "http" "Example.com" "EXAMPLE.COM"
              "/path?x=1" "/" eq_refl eq_refl eq_refl eq_refl eq_refl eq_refl eq_refl)
    as (Hfirst & Hsame & Hhost & _).
  do 7 (split; [reflexivity |]). split; [exact Hfirst |]. split; [exact Hsame |].
  exact (Hhost "user:pw"%string "8443"%string eq_refl eq_refl).
Defined.

(** * Further properties of the delivery layer *)

(** ** The payload [validate.Struct] accepts *)

Lemma RuneCountInString_empty (s : string) :
  RuneCountInString s = 0%nat <-> s = EmptyString.
Proof.
  split; [| intros ->; reflexivity].
  destruct s; [reflexivity | discriminate].
Qed.

Lemma validate_Struct_within (request : RequestWebsite) :
  (2 <= RuneCountInString (Name request) <= 100
   /\ 3 <= RuneCountInString (URL request))%nat ->
  validate_Struct request = None.
Proof.
  intros [[Hmin Hmax] Hurl].
  unfold validate_Struct, field_errors, validate_Name, validate_URL.
  destruct (Name request) as [| c1 name] eqn:Hname; [cbn in Hmin; lia |].
  destruct (URL request) as [| c2 url] eqn:Hu; [cbn in Hurl; lia |].
  cbn [is_empty].
  apply Nat.ltb_ge in Hmin. rewrite Hmin.
  assert (Hmax' : (100 <? RuneCountInString (String c1 name))%nat = false)
    by (apply Nat.ltb_ge; exact Hmax).
  rewrite Hmax'. apply Nat.ltb_ge in Hurl. rewrite Hurl. reflexivity.
Qed.

(** The payload is accepted exactly when the name has 2 to 100 runes and
    the URL at least 3: the tag [required] rejects nothing that [min] lets
    through. *)
Theorem validate_Struct_accepts_iff (request : RequestWebsite) :
  validate_Struct request = None
  <-> (2 <= RuneCountInString (Name request) <= 100
       /\ 3 <= RuneCountInString (URL request))%nat.
Proof.
  split; [apply validate_Struct_accepts | apply validate_Struct_within].
Qed.

Lemma rune_width_bounds (c : ascii) (rest : string) :
  (1 <= rune_width c rest <= 4)%nat.
Proof.
  unfold rune_width.
  repeat match goal with
         | |- context [match ?x with _ => _ end] => destruct x
         end; lia.
Qed.

Lemma rune_count_from_le_length (s : string) : forall skip : nat,
  (rune_count_from skip s <= String.length s)%nat.
Proof.
  induction s as [| c rest IH]; intros skip; cbn [rune_count_from String.length];
    [lia |].
  destruct skip as [| k].
  - specialize (IH (rune_width c rest - 1)%nat). lia.
  - specialize (IH k). lia.
Qed.

Lemma length_le_rune_count_from (s : string) : forall skip : nat,
  (String.length s <= skip + 4 * rune_count_from skip s)%nat.
Proof.
  induction s as [| c rest IH]; intros skip; cbn [rune_count_from String.length];
    [lia |].
  destruct skip as [| k].
  - specialize (IH (rune_width c rest - 1)%nat).
    pose proof (rune_width_bounds c rest). lia.
  - specialize (IH k). lia.
Qed.

(** A string has at most as many runes as bytes and at most four bytes to
    the rune. *)
Lemma RuneCountInString_bounds (s : string) :
  (RuneCountInString s <= String.length s <= 4 * RuneCountInString s)%nat.
Proof.
  unfold RuneCountInString. split.
  - apply rune_count_from_le_length.
  - apply (length_le_rune_count_from s 0).
Qed.

(** An accepted payload, in bytes: the name has 2 to 400 bytes and the URL
    at least 3, whatever the encoding. *)
Theorem accepted_payload_byte_lengths (request : RequestWebsite) :
  validate_Struct request = None ->
  (2 <= String.length (Name request) <= 400 /\ 3 <= String.length (URL request))%nat.
Proof.
  intros Hok. apply validate_Struct_accepts in Hok.
  pose proof (RuneCountInString_bounds (Name request)).
  pose proof (RuneCountInString_bounds (URL request)). lia.
Qed.

Lemma rune_width_ascii (c : ascii) (rest : string) :
  (nat_of_ascii c <? 194)%nat = true -> rune_width c rest = 1%nat.
Proof.
  intros Hc. unfold rune_width, lead_info. cbv zeta. rewrite Hc. reflexivity.
Qed.

Lemma RuneCountInString_ascii (s : string) :
  all_chars is_ascii s = true -> RuneCountInString s = String.length s.
Proof.
  unfold RuneCountInString.
  induction s as [| c rest IH]; intros Hascii;
    cbn [all_chars] in Hascii; cbn [rune_count_from String.length]; [reflexivity |].
  apply andb_true_iff in Hascii. destruct Hascii as [Hc Hrest].
  rewrite rune_width_ascii.
  - cbn [Nat.sub]. rewrite (IH Hrest). reflexivity.
  - unfold is_ascii in Hc. apply Nat.ltb_lt in Hc. apply Nat.ltb_lt. lia.
Qed.

(** For a payload in ASCII the bounds are on the lengths: it is accepted
    exactly when the name has 2 to 100 bytes and the URL at least 3. *)
Theorem ascii_payload_accepted_iff (request : RequestWebsite) :
  all_chars is_ascii (Name request) = true ->
  all_chars is_ascii (URL request) = true ->
  (validate_Struct request = None
   <-> (2 <= String.length (Name request) <= 100
        /\ 3 <= String.length (URL request))%nat).
Proof.
  intros Hname Hurl.
  rewrite <- (RuneCountInString_ascii _ Hname), <- (RuneCountInString_ascii _ Hurl).
  split; [apply validate_Struct_accepts | apply validate_Struct_within].
Qed.

(** ** The handlers, path by path *)

Section Extras.

Context {Time Stamp Db : Type}.
Context {pkg : Packages Time Stamp} {digest : Digest}.
Context {auth : auth_UseCase} {uc : UseCase Stamp Db}.
Variable clock : nat -> Time.

Implicit Types (c : gin_Context) (w : @World Db).

(** A body that does not bind is answered 400 Bad Request with the text of
    the binding error; nothing else is called, whatever the credential. *)
Theorem AddWebsite_bind_error c w (err : error) :
  ShouldBindJSON (Request c) = inr err ->
  run clock (httpDelivery.AddWebsite c) w =
    ([Ev (c_ShouldBindJSON (Request c)) (inr err);
      Ev (c_JSON StatusBadRequest (gin_H "error" err)) tt], w).
Proof.
  intros Hbind. unfold httpDelivery.AddWebsite. cbn [run answer].
  rewrite Hbind. reflexivity.
Qed.

(** The client of [AddWebsite] receives the status 200 in two cases and no
    other: the store took the record, and the body is that record; or the
    creation time did not parse, the handler wrote nothing and nothing was
    created. *)
Theorem AddWebsite_client_ok_iff c w :
  let tr := fst (run clock (httpDelivery.AddWebsite c) w) in
  client_status tr = StatusOK
  <-> (exists site : Website Stamp,
         created tr = [site]
         /\ responses tr = [mkResponse StatusOK (website_json site)])
      \/ (parse_time_failures tr <> [] /\ responses tr = [] /\ created tr = []).
Proof.
  cbv zeta. unfold httpDelivery.AddWebsite, httpDelivery.create, client_status.
  walk; split;
    try (intros Hcode; discriminate Hcode);
    try (intros [(site & Hc & Hr) | (Hf & Hr & Hc)];
         first [discriminate Hr | discriminate Hc | exfalso; apply Hf; reflexivity]);
    try reflexivity;
    intros _;
    first [ left; eexists; split; reflexivity
          | right; repeat split; discriminate ].
Qed.

(** A lookup that fails is answered 500 with the message of the lookup; the
    clock was not read, no insert was called and the world is as it was. *)
Theorem AddWebsite_lookup_failure c w (request : RequestWebsite)
    (hostName userID : string) (err : error) :
  payload_of c request ->
  ParseURL (URL request) = inl hostName ->
  resolve (Request c) = inl userID ->
  FindWebsite (store w) userID hostName = inr err ->
  let tr := fst (run clock (httpDelivery.AddWebsite c) w) in
  responses tr =
    [mkResponse StatusInternalServerError
       (gin_H "msg" "error occured while check for the email")]
  /\ inserts tr = []
  /\ clock_reads tr = 0%nat
  /\ snd (run clock (httpDelivery.AddWebsite c) w) = w.
Proof.
  unfold resolve. intros [Hbind Hvalid] Hparse Hres Hfind.
  destruct (ExtractAccessTokenMetadata (Request c)) as [tokenAuth | e] eqn:Hextract;
    [| discriminate].
  cbv zeta. unfold httpDelivery.AddWebsite. answer_calls.
  rewrite Hbind, Hvalid. answer_calls. rewrite Hparse. answer_calls.
  rewrite Hextract. answer_calls. rewrite Hres. answer_calls.
  rewrite Hfind. answer_calls. repeat split.
Qed.

(** An insert the store refuses is answered 500 with the message of the
    insert, never 200, and nothing was created. *)
Theorem AddWebsite_insert_failure c w (site : Website Stamp) :
  In (site, false) (inserts (fst (run clock (httpDelivery.AddWebsite c) w))) ->
  let tr := fst (run clock (httpDelivery.AddWebsite c) w) in
  responses tr =
    [mkResponse StatusInternalServerError
       (gin_H "msg" "error occured while insert website")]
  /\ created tr = []
  /\ exists err : error,
       fst (InsertWebsite (store w) (UserID site) site)
       = store (snd (run clock (httpDelivery.AddWebsite c) w))
       /\ snd (InsertWebsite (store w) (UserID site) site) = Some err.
Proof.
  cbv zeta. unfold httpDelivery.AddWebsite, httpDelivery.create.
  walk; intros Hin; cbn [In] in Hin; try contradiction;
    destruct Hin as [Hin | []]; inversion Hin; subst; clear Hin;
    cbn [UserID] in *;
    repeat match goal with
           | H1 : ?t = _, H2 : ?t = _ |- _ =>
             rewrite H1 in H2; inversion H2; subst; clear H2
           end;
    cbn [fst snd store]; repeat split; eexists; split; reflexivity.
Qed.

(** The branch after [security.Hash] that answers "error occured while
    create id for the website" is dead: no run of [AddWebsite] writes that
    message. *)
Theorem AddWebsite_never_create_id_error c w :
  Forall (fun r : Response Stamp =>
            payload r <> gin_H "msg" "error occured while create id for the website")
    (responses (fst (run clock (httpDelivery.AddWebsite c) w))).
Proof.
  unfold httpDelivery.AddWebsite, httpDelivery.create.
  walk; repeat constructor; cbn [payload]; intros Heq; inversion Heq.
Qed.

(** [AddWebsite] writes at most one response, and its status is 200, 400,
    401, 409 or 500. *)
Theorem AddWebsite_statuses c w :
  (List.length (responses (fst (run clock (httpDelivery.AddWebsite c) w))) <= 1)%nat
  /\ Forall (fun code => In code AddWebsite_codes)
       (statuses (fst (run clock (httpDelivery.AddWebsite c) w))).
Proof.
  unfold httpDelivery.AddWebsite, httpDelivery.create, AddWebsite_codes.
  walk; (split; [lia | repeat constructor; cbn [In]; tauto]).
Qed.

(** A registration that passes every check: the lookup finds no record of
    the owner for the host (a count of zero or less), the creation time
    parses and the store takes the record.  The answer is 200 with the record
    built from the request, the canonical host, the owner and the digest; the
    store is the one the insert left and the clock was read once. *)
Theorem AddWebsite_success c w (request : RequestWebsite) (hostName userID : string)
    (n : Z) (createdAt : Stamp) (db' : Db) :
  payload_of c request ->
  ParseURL (URL request) = inl hostName ->
  resolve (Request c) = inl userID ->
  FindWebsite (store w) userID hostName = inl n ->
  (n <= 0)%Z ->
  ParseTime (Format (clock (ticks w)) httpDelivery.layout) = inl createdAt ->
  let site :=
    {| ID := Hash hostName; UserID := userID; WName := Name request;
       HostName := hostName; WURL := URL request; Tracked := false;
       CreatedAt := createdAt; UpdatedAt := createdAt |} in
  InsertWebsite (store w) userID site = (db', None) ->
  responses (fst (run clock (httpDelivery.AddWebsite c) w)) =
    [mkResponse StatusOK (website_json site)]
  /\ inserts (fst (run clock (httpDelivery.AddWebsite c) w)) = [(site, true)]
  /\ snd (run clock (httpDelivery.AddWebsite c) w)
     = {| store := db'; ticks := S (ticks w) |}.
Proof.
  intros [Hbind Hvalid] Hparse Hres Hfind Hle Htime site Hinsert.
  unfold resolve in Hres.
  destruct (ExtractAccessTokenMetadata (Request c)) as [tokenAuth | e] eqn:Hextract;
    [| discriminate].
  apply Z.ltb_ge in Hle. subst site.
  unfold httpDelivery.AddWebsite, httpDelivery.create. answer_calls.
  rewrite Hbind, Hvalid. answer_calls. rewrite Hparse. answer_calls.
  rewrite Hextract. answer_calls. rewrite Hres. answer_calls.
  rewrite Hfind, Hle. answer_calls. rewrite Htime. answer_calls.
  rewrite Hinsert. answer_calls. repeat split.
Qed.

(** [AddWebsite] answers 409 exactly when the request passed the payload
    checks, its URL has a canonical host, the caller resolved, and the lookup
    for that caller and host counted at least one record. *)
Theorem AddWebsite_conflict_iff c w :
  statuses (fst (run clock (httpDelivery.AddWebsite c) w)) = [StatusConflict]
  <-> exists (request : RequestWebsite) (hostName userID : string) (n : Z),
        payload_of c request
        /\ ParseURL (URL request) = inl hostName
        /\ resolve (Request c) = inl userID
        /\ FindWebsite (store w) userID hostName = inl n
        /\ (0 < n)%Z.
Proof.
  split.
  - unfold httpDelivery.AddWebsite, httpDelivery.create.
    walk; intros Hst; try discriminate Hst.
    match goal with
    | Hb : ShouldBindJSON _ = inl ?r, Hp : ParseURL _ = inl ?h,
      Hg : GetAuth _ = inl ?u, Hf : FindWebsite _ _ _ = inl ?k |- _ =>
      exists r, h, u, k
    end.
    unfold payload_of, resolve. repeat split; auto.
    + match goal with H : ExtractAccessTokenMetadata _ = _ |- _ => rewrite H end.
      assumption.
    + apply Z.ltb_lt. assumption.
  - intros (request & hostName & userID & n & Hpayload & Hparse & Hres & Hfind & Hpos).
    destruct (AddWebsite_conflict clock c w request hostName userID n
                Hpayload Hparse Hres Hfind Hpos) as (Hresp & _).
    unfold statuses. rewrite Hresp. reflexivity.
Qed.

(** ** The read handlers *)

(** [Tracking], [GetWebsite] and [GetAllWebsite] only read: each writes one
    response on every path, calls no insert, does not read the clock and
    leaves the world as it was. *)
Theorem read_handlers_read_only (AppURL : string) c w :
  read_only clock (httpDelivery.Tracking AppURL c) w
  /\ read_only clock (httpDelivery.GetWebsite c) w
  /\ read_only clock (httpDelivery.GetAllWebsite c) w.
Proof.
  unfold read_only, httpDelivery.Tracking, httpDelivery.GetWebsite,
    httpDelivery.GetAllWebsite.
  split; [| split]; walk; repeat split.
Qed.

(** No handler calls the website use case for anyone but the resolved
    caller: every lookup, insert and read in a trace carries the user the
    request resolves to, so none is made when the resolution fails. *)
Theorem store_calls_for_resolved_caller (AppURL : string) c w :
  for_resolved_caller c (fst (run clock (httpDelivery.Tracking AppURL c) w))
  /\ for_resolved_caller c (fst (run clock (httpDelivery.GetWebsite c) w))
  /\ for_resolved_caller c (fst (run clock (httpDelivery.GetAllWebsite c) w))
  /\ for_resolved_caller c (fst (run clock (httpDelivery.AddWebsite c) w)).
Proof.
  unfold for_resolved_caller, httpDelivery.Tracking, httpDelivery.GetWebsite,
    httpDelivery.GetAllWebsite, httpDelivery.AddWebsite, httpDelivery.create.
  repeat split; walk; repeat constructor; cbn [store_owner_of]; try exact I;
    unfold resolve;
    repeat match goal with H : _ = _ |- _ => rewrite H end; reflexivity.
Qed.

(** [Tracking] does not consult the store: its calls and answers are the
    same in every world, and a resolved caller is answered 200 with the page
    for the identifier of the route, whether or not a website has it. *)
Theorem Tracking_ignores_store (AppURL : string) c w w' (userID : string) :
  resolve (Request c) = inl userID ->
  fst (run clock (httpDelivery.Tracking AppURL c) w)
  = fst (run clock (httpDelivery.Tracking AppURL c) w')
  /\ existsb is_store_access (fst (run clock (httpDelivery.Tracking AppURL c) w)) = false
  /\ responses (fst (run clock (httpDelivery.Tracking AppURL c) w))
     = [mkResponse StatusOK (tracking_html AppURL (Param c "website_id") userID)].
Proof.
  unfold resolve. intros Hres.
  destruct (ExtractAccessTokenMetadata (Request c)) as [tokenAuth | e] eqn:Hextract;
    [| discriminate].
  unfold httpDelivery.Tracking. answer_calls.
  rewrite Hextract. answer_calls. rewrite Hres. answer_calls. repeat split.
Qed.

(** [GetWebsite] answers 200 exactly when the caller resolves and the use
    case answers the read, for that caller and the identifier of the route,
    with a website; the response is that website. *)
Theorem GetWebsite_ok_iff c w (site : Website Stamp) :
  responses (fst (run clock (httpDelivery.GetWebsite c) w))
  = [mkResponse StatusOK (website_json site)]
  <-> exists userID : string,
        resolve (Request c) = inl userID
        /\ GetWebsite (store w) userID (Param c "website_id") = inl site.
Proof.
  unfold httpDelivery.GetWebsite, resolve. split.
  - walk; intros Hresp; inversion Hresp; subst.
    eexists. split; [reflexivity | assumption].
  - intros (userID & Hres & Hget).
    destruct (ExtractAccessTokenMetadata (Request c)) as [tokenAuth | e] eqn:Hextract;
      [| discriminate].
    answer_calls. rewrite Hextract. answer_calls. rewrite Hres. answer_calls.
    rewrite Hget. answer_calls. reflexivity.
Qed.

(** [GetAllWebsite] for a resolved caller answers with what the use case
    lists for that caller, an empty list included, or with 500 when the use
    case fails. *)
Theorem GetAllWebsite_response c w (userID : string) :
  resolve (Request c) = inl userID ->
  responses (fst (run clock (httpDelivery.GetAllWebsite c) w))
  = [match GetAllWebsite (store w) userID with
     | inl websites => mkResponse StatusOK (websites_json websites)
     | inr _ =>
       mkResponse StatusInternalServerError
         (gin_H "error" "error occured while get all website")
     end].
Proof.
  unfold resolve. intros Hres.
  destruct (ExtractAccessTokenMetadata (Request c)) as [tokenAuth | e] eqn:Hextract;
    [| discriminate].
  unfold httpDelivery.GetAllWebsite. answer_calls.
  rewrite Hextract. answer_calls. rewrite Hres. answer_calls.
  destruct (GetAllWebsite (store w) userID); reflexivity.
Qed.

End Extras.

(** ** The further properties on the example requests *)

Lemma accepted_payload_byte_lengths_witness :
  let request := {| Name := "My Site"; URL := "https://Example.com/path?x=1" |} in
  validate_Struct request = None
  /\ (2 <= String.length (Name request) <= 400
      /\ 3 <= String.length (URL request))%nat.
Proof.
  assert (Hok : validate_Struct
                  {| Name := "My Site"; URL := "https://Example.com/path?x=1" |} = None)
    by reflexivity.
  split; [exact Hok |].
  exact (accepted_payload_byte_lengths _ Hok).
Defined.

Lemma ascii_payload_accepted_iff_witness :
  let request := {| Name := "M"; URL := "https://example.com" |} in
  all_chars is_ascii (Name request) = true
  /\ all_chars is_ascii (URL request) = true
  /\ (validate_Struct request = None
      <-> (2 <= String.length (Name request) <= 100
           /\ 3 <= String.length (URL request))%nat).
Proof.
  assert (Hname : all_chars is_ascii "M" = true) by reflexivity.
  assert (Hurl : all_chars is_ascii "https://example.com" = true) by reflexivity.
  split; [exact Hname |]. split; [exact Hurl |].
  exact (ascii_payload_accepted_iff {| Name := "M"; URL := "https://example.com" |}
           Hname Hurl).
Defined.

Lemma AddWebsite_bind_error_witness :
  lines_Bind (Request unbound) = inr "unexpected end of input"%string
  /\ example_run (plain_store string) text_ParseTime
       (httpDelivery.AddWebsite unbound) empty_world
     = ([Ev (c_ShouldBindJSON (Request unbound)) (inr "unexpected end of input"%string);
         Ev (c_JSON StatusBadRequest (gin_H "error" "unexpected end of input")) tt],
        empty_world).
Proof.
  assert (Hbind : lines_Bind (Request unbound) = inr "unexpected end of input"%string)
    by reflexivity.
  split; [exact Hbind |].
  exact (AddWebsite_bind_error
           (pkg := reference_packages text_ParseTime) (digest := prefix_digest)
           (auth := example_auth) (uc := plain_store string)
           seconds_clock unbound empty_world "unexpected end of input"%string Hbind).
Defined.

Lemma AddWebsite_lookup_failure_witness :
  let r := example_run (lookup_down_store string) text_ParseTime
             (httpDelivery.AddWebsite my_site) empty_world in
  example_resolve (Request my_site) = inl "u1"%string
  /\ failing_Find (store empty_world) "u1" "example.com"
     = inr "context deadline exceeded"%string
  /\ responses (fst r)
     = [mkResponse StatusInternalServerError
          (gin_H "msg" "error occured while check for the email")]
  /\ inserts (fst r) = []
  /\ clock_reads (fst r) = 0%nat
  /\ snd r = empty_world.
Proof.
  assert (Hpayload : example_payload_of my_site
                       {| Name := "My Site"; URL := "https://Example.com/path?x=1" |})
    by (split; reflexivity).
  assert (Hparse : canonicalize "https://Example.com/path?x=1" = inl "example.com"%string)
    by reflexivity.
  assert (Hres : example_resolve (Request my_site) = inl "u1"%string) by reflexivity.
  assert (Hfind : failing_Find (store empty_world) "u1" "example.com"
                  = inr "context deadline exceeded"%string) by reflexivity.
  split; [exact Hres |]. split; [exact Hfind |].
  exact (AddWebsite_lookup_failure
           (pkg := reference_packages text_ParseTime) (digest := prefix_digest)
           (auth := example_auth) (uc := lookup_down_store string)
           seconds_clock my_site empty_world
           {| Name := "My Site"; URL := "https://Example.com/path?x=1" |}
           "example.com"%string "u1"%string "context deadline exceeded"%string
           Hpayload Hparse Hres Hfind).
Defined.

Lemma AddWebsite_insert_failure_witness :
  let site := example_site "u1" "My Site" "https://Example.com/path?x=1" in
  let r := example_run (insert_down_store string) text_ParseTime
             (httpDelivery.AddWebsite my_site) empty_world in
  In (site, false) (inserts (fst r))
  /\ responses (fst r)
     = [mkResponse StatusInternalServerError
          (gin_H "msg" "error occured while insert website")]
  /\ created (fst r) = [].
Proof.
  cbv zeta. unfold example_run.
  assert (Hin :
    In (example_site "u1" "My Site" "https://Example.com/path?x=1", false)
       (inserts (fst (run (pkg := reference_packages text_ParseTime)
                        (digest := prefix_digest) (auth := example_auth)
                        (uc := insert_down_store string) seconds_clock
                        (httpDelivery.AddWebsite my_site) empty_world))))
    by (left; vm_compute; reflexivity).
  destruct (AddWebsite_insert_failure
              (pkg := reference_packages text_ParseTime) (digest := prefix_digest)
              (auth := example_auth) (uc := insert_down_store string)
              seconds_clock my_site empty_world _ Hin)
    as (Hresp & Hcreated & _).
  split; [exact Hin |]. split; [exact Hresp | exact Hcreated].
Defined.

Lemma AddWebsite_success_witness :
  let site := example_site "u1" "My Site" "https://Example.com/path?x=1" in
  let r := example_run (plain_store string) text_ParseTime
             (httpDelivery.AddWebsite my_site) world_of_u2 in
  sites_Find (store world_of_u2) "u1" "example.com" = inl 0%Z
  /\ responses (fst r)
     = [mkResponse StatusOK
          (website_json
             {| ID := "site:example.com"; UserID := "u1"; WName := "My Site";
                HostName := "example.com"; WURL := "https://Example.com/path?x=1";
                Tracked := false;
                CreatedAt := "2006-01-02, 15:04:05''";
                UpdatedAt := "2006-01-02, 15:04:05''" |})]
  /\ List.length (store (snd r)) = 2%nat
  /\ ticks (snd r) = 2%nat.
Proof.
  cbv zeta. unfold example_run.
  assert (Hpayload : example_payload_of my_site
                       {| Name := "My Site"; URL := "https://Example.com/path?x=1" |})
    by (split; reflexivity).
  assert (Hparse : canonicalize "https://Example.com/path?x=1" = inl "example.com"%string)
    by reflexivity.
  assert (Hres : example_resolve (Request my_site) = inl "u1"%string) by reflexivity.
  assert (Hfind : sites_Find (store world_of_u2) "u1" "example.com" = inl 0%Z)
    by reflexivity.
  assert (Hle : (0 <= 0)%Z) by lia.
  assert (Htime : text_ParseTime (ticks_Format (seconds_clock (ticks world_of_u2))
                                    httpDelivery.layout)
                  = inl "2006-01-02, 15:04:05''"%string) by reflexivity.
  pose proof (AddWebsite_success
                (pkg := reference_packages text_ParseTime) (digest := prefix_digest)
                (auth := example_auth) (uc := plain_store string)
                seconds_clock my_site world_of_u2
                {| Name := "My Site"; URL := "https://Example.com/path?x=1" |}
                "example.com"%string "u1"%string 0%Z "2006-01-02, 15:04:05''"%string
                (store world_of_u2
                 ++ [("u1"%string,
                      {| ID := "site:example.com"; UserID := "u1"; WName := "My Site";
                         HostName := "example.com";
                         WURL := "https://Example.com/path?x=1";
                         Tracked := false;
                         CreatedAt := "2006-01-02, 15:04:05''";
                         UpdatedAt := "2006-01-02, 15:04:05''" |})])
                Hpayload Hparse Hres Hfind Hle Htime eq_refl) as (Hresp & _ & Hworld).
  split; [exact Hfind |]. split; [exact Hresp |].
  rewrite Hworld. split; reflexivity.
Defined.

Lemma Tracking_ignores_store_witness :
  let p := httpDelivery.Tracking "https://app.example" read_by_u1 in
  let r := example_run (plain_store string) text_ParseTime p empty_world in
  let r' := example_run (plain_store string) text_ParseTime p world_of_u2 in
  example_resolve (Request read_by_u1) = inl "u1"%string
  /\ fst r = fst r'
  /\ existsb is_store_access (fst r) = false
  /\ responses (fst r)
     = [mkResponse StatusOK
          (tracking_html "https://app.example" "site:example.com" "u1")].
Proof.
  assert (Hres : example_resolve (Request read_by_u1) = inl "u1"%string)
    by reflexivity.
  split; [exact Hres |].
  exact (Tracking_ignores_store
           (pkg := reference_packages text_ParseTime) (digest := prefix_digest)
           (auth := example_auth) (uc := plain_store string)
           seconds_clock "https://app.example"%string read_by_u1 empty_world
           world_of_u2 "u1"%string Hres).
Defined.

Lemma GetAllWebsite_response_witness :
  let r := example_run (plain_store string) text_ParseTime
             (httpDelivery.GetAllWebsite read_by_u1) world_of_u2 in
  let r' := example_run (plain_store string) text_ParseTime
              (httpDelivery.GetAllWebsite read_by_u2) world_of_u2 in
  example_resolve (Request read_by_u1) = inl "u1"%string
  /\ example_resolve (Request read_by_u2) = inl "u2"%string
  /\ responses (fst r) = [mkResponse StatusOK (websites_json [])]
  /\ responses (fst r')
     = [mkResponse StatusOK
          (websites_json [example_site "u2" "Their Site" "https://example.com"])].
Proof.
  assert (Hres1 : example_resolve (Request read_by_u1) = inl "u1"%string)
    by reflexivity.
  assert (Hres2 : example_resolve (Request read_by_u2) = inl "u2"%string)
    by reflexivity.
  split; [exact Hres1 |]. split; [exact Hres2 |]. split.
  - exact (GetAllWebsite_response
             (pkg := reference_packages text_ParseTime) (digest := prefix_digest)
             (auth := example_auth) (uc := plain_store string)
             seconds_clock read_by_u1 world_of_u2 "u1"%string Hres1).
  - exact (GetAllWebsite_response
             (pkg := reference_packages text_ParseTime) (digest := prefix_digest)
             (auth := example_auth) (uc := plain_store string)
             seconds_clock read_by_u2 world_of_u2 "u2"%string Hres2).
Defined.
